(** * Customer-churn notebook (MLOps/DEPI_MLOps.ipynb)

    A shallow embedding of the notebook's cells: the data loader, the
    preprocessing cell and the training cell.  Data frames are columnar, as
    in pandas: a row-label index and a list of named columns.  The library
    calls the notebook makes (pandas, scikit-learn, numpy, pyodbc) are
    modelled after the behaviour of the called functions for the arguments
    the notebook passes. *)

From Stdlib Require Import ZArith QArith Qround Sorted.
From stdpp Require Import base tactics option list strings pretty gmap.

Open Scope string_scope.
Open Scope list_scope.
Open Scope nat_scope.

(** ** Values, cells and errors *)

(** A non-missing cell holds a string (object columns) or a number; the
    numbers of the model are integers.  A missing cell (SQL NULL, [None],
    NaN) is [None].  The cells only ever get tested for being missing,
    compared, and printed into column names. *)
Inductive value : Type :=
  | VStr (s : string)
  | VNum (z : Z).

Abbreviation cell := (option value).

Global Instance value_eq_dec : EqDecision value.
Proof. solve_decision. Defined.

(** Python exceptions the cells can raise. *)
Inductive exn : Type :=
  | KeyError (label : string)
  | ValueError (msg : string)
  | DatabaseError (msg : string).

Inductive res (A : Type) : Type :=
  | Ok (a : A)
  | Raise (e : exn).
Arguments Ok {A} a.
Arguments Raise {A} e.

Definition bind {A B} (m : res A) (k : A -> res B) : res B :=
  match m with
  | Ok a => k a
  | Raise e => Raise e
  end.

Notation "x <- m ;; k" := (bind m (fun x => k))
  (at level 100, m at next level, right associativity).

(** ** Data frames *)

Record Series : Type := mkSeries {
  s_index : list nat;
  s_values : list cell
}.

Record DataFrame : Type := mkDataFrame {
  index : list nat;
  data : list (string * list cell)
}.

Definition columns (df : DataFrame) : list string := (data df).*1.

Definition nrows (df : DataFrame) : nat := length (index df).

(** A query result as the driver's cursor returns it: the column names of
    the description and the fetched rows. *)
Record SqlResult : Type := mkSqlResult {
  description : list string;
  fetched : list (list cell)
}.

(** [pd.read_sql] builds the frame from the fetched records, with a
    [RangeIndex]. *)
Definition from_records (r : SqlResult) : DataFrame :=
  {| index := seq 0 (length (fetched r));
     data := imap (fun j name => (name, map (fun row => nth j row None) (fetched r)))
                  (description r) |}.

Fixpoint lookup_col (c : string) (d : list (string * list cell)) : option (list cell) :=
  match d with
  | [] => None
  | (name, vals) :: d' => if decide (name = c) then Some vals else lookup_col c d'
  end.

(** [df[c]] *)
Definition getitem (c : string) (df : DataFrame) : res Series :=
  match lookup_col c (data df) with
  | Some vals => Ok {| s_index := index df; s_values := vals |}
  | None => Raise (KeyError c)
  end.

(** [df[c] = vals]: overwrites the column where it exists, appends it
    otherwise. *)
Definition setitem (c : string) (vals : list cell) (df : DataFrame) : DataFrame :=
  {| index := index df;
     data := if decide (c ∈ columns df)
             then map (fun p => if decide (p.1 = c) then (c, vals) else p) (data df)
             else data df ++ [(c, vals)] |}.

(** Positional row selection ([iloc] with an integer array). *)
Definition take_pos {A} (d : A) (pos : list nat) (l : list A) : list A :=
  map (fun i => nth i l d) pos.

Definition iloc (pos : list nat) (df : DataFrame) : DataFrame :=
  {| index := take_pos 0 pos (index df);
     data := map (fun p => (p.1, take_pos None pos p.2)) (data df) |}.

Definition iloc_series (pos : list nat) (s : Series) : Series :=
  {| s_index := take_pos 0 pos (s_index s);
     s_values := take_pos None pos (s_values s) |}.

(** ** Preprocessing cell *)

Definition notna (c : cell) : bool :=
  match c with Some _ => true | None => false end.

(** Row [i] has no missing value in any column. *)
Definition row_complete (df : DataFrame) (i : nat) : bool :=
  forallb (fun p => notna (nth i p.2 None)) (data df).

(** [df.dropna()]: [axis=0], [how='any'] over all columns. *)
Definition dropna (df : DataFrame) : DataFrame :=
  iloc (filter (fun i => row_complete df i = true) (seq 0 (nrows df))) df.

(** [lambda x: 1 if x == 'Churned' else 0] *)
Definition churn_lambda (x : cell) : cell :=
  Some (VNum (if decide (x = Some (VStr "Churned")) then 1 else 0)).

Definition categorical_columns : list string :=
  ["Gender"; "City"; "Offer"; "Phone_Service"; "Multiple_Lines";
   "Internet_Service"; "Internet_Type"; "Online_Security"; "Online_Backup";
   "Device_Protection_Plan"; "Premium_Tech_Support"; "Streaming_TV";
   "Streaming_Movies"; "Streaming_Music"; "Unlimited_Data"; "Contract";
   "Paperless_Billing"; "Payment_Method"; "Churn_Category"; "Churn_Reason"].

(** Order of the categories: numbers before strings, numbers by value,
    strings by code point. *)
Definition value_leb (a b : value) : bool :=
  match a, b with
  | VNum x, VNum y => (x <=? y)%Z
  | VNum _, VStr _ => true
  | VStr _, VNum _ => false
  | VStr s, VStr t => String.leb s t
  end.

Fixpoint insert_sorted (v : value) (l : list value) : list value :=
  match l with
  | [] => [v]
  | x :: l' => if value_leb v x then v :: x :: l' else x :: insert_sorted v l'
  end.

Definition sort_values (l : list value) : list value :=
  foldr insert_sorted [] l.

(** Distinct values in order of first appearance. *)
Fixpoint unique (l : list value) : list value :=
  match l with
  | [] => []
  | x :: l' => x :: filter (fun y => y <> x) (unique l')
  end.

(** The categories of a column: its distinct non-missing values, sorted. *)
Definition categories (vals : list cell) : list value :=
  sort_values (unique (omap id vals)).

Definition value_str (v : value) : string :=
  match v with
  | VStr s => s
  | VNum z => pretty z
  end.

Definition dummy_name (prefix : string) (v : value) : string :=
  prefix +:+ "_" +:+ value_str v.

Definition indicator (v : value) (x : cell) : cell :=
  Some (VNum (if decide (x = Some v) then 1 else 0)).

(** The categories that get an indicator column. *)
Definition kept_levels (drop_first : bool) (vals : list cell) : list value :=
  if drop_first then tail (categories vals) else categories vals.

Definition get_dummies_1d (drop_first : bool) (prefix : string) (vals : list cell)
  : list (string * list cell) :=
  map (fun v => (dummy_name prefix v, map (indicator v) vals))
      (kept_levels drop_first vals).

Fixpoint select_columns (cols : list string) (df : DataFrame)
  : res (list (string * list cell)) :=
  match cols with
  | [] => Ok []
  | c :: cols' =>
      match lookup_col c (data df) with
      | Some vals => rest <- select_columns cols' df ;; Ok ((c, vals) :: rest)
      | None => Raise (KeyError c)
      end
  end.

(** [pd.get_dummies(df, columns=cols, drop_first=...)]: the columns that
    are not encoded come first, then the indicator columns of each encoded
    column, in the order of [cols]. *)
Definition get_dummies (cols : list string) (drop_first : bool) (df : DataFrame)
  : res DataFrame :=
  to_encode <- select_columns cols df ;;
  Ok {| index := index df;
        data := filter (fun p => p.1 ∉ cols) (data df)
                ++ concat (map (fun p => get_dummies_1d drop_first p.1 p.2) to_encode) |}.

(** The (column, category) pairs that get an indicator column, in output
    order, and the indicator column of one pair. *)
Definition dummy_keys (cols : list string) (drop_first : bool) (df : DataFrame)
  : list (string * value) :=
  concat (map (fun c => match lookup_col c (data df) with
                        | Some vals => map (pair c) (kept_levels drop_first vals)
                        | None => []
                        end) cols).

Definition dummy_column (df : DataFrame) (k : string * value) : string * list cell :=
  (dummy_name k.1 k.2, map (indicator k.2) (default [] (lookup_col k.1 (data df)))).

(** The first category of column [c], the one [drop_first] drops. *)
Definition first_category (c : string) (df : DataFrame) : option value :=
  match lookup_col c (data df) with
  | Some vals => head (categories vals)
  | None => None
  end.

Fixpoint first_missing (cols : list string) (df : DataFrame) : option string :=
  match cols with
  | [] => None
  | c :: cols' => if decide (c ∈ columns df) then first_missing cols' df else Some c
  end.

(** [df.drop(columns=cols)] *)
Definition drop_columns (cols : list string) (df : DataFrame) : res DataFrame :=
  match first_missing cols df with
  | Some c => Raise (KeyError c)
  | None => Ok {| index := index df;
                  data := filter (fun p => p.1 ∉ cols) (data df) |}
  end.

(** The statements of the preprocessing cell; each rebinds [df]. *)
Inductive stmt : Type :=
  | SDropna
  | SAssignChurn
  | SGetDummies (cols : list string) (drop_first : bool)
  | SDrop (cols : list string).

Definition run_stmt (s : stmt) (df : DataFrame) : res DataFrame :=
  match s with
  | SDropna => Ok (dropna df)
  | SAssignChurn =>
      status <- getitem "Customer_Status" df ;;
      Ok (setitem "Churn" (map churn_lambda (s_values status)) df)
  | SGetDummies cols drop_first => get_dummies cols drop_first df
  | SDrop cols => drop_columns cols df
  end.

Fixpoint run (prog : list stmt) (df : DataFrame) : res DataFrame :=
  match prog with
  | [] => Ok df
  | s :: prog' => df' <- run_stmt s df ;; run prog' df'
  end.

Definition preprocessing_cell : list stmt :=
  [SDropna; SAssignChurn; SGetDummies categorical_columns true;
   SDrop ["Customer_ID"; "Customer_Status"]].

Definition preprocess (df : DataFrame) : res DataFrame :=
  run preprocessing_cell df.

(** A small table to run the cell on. *)
Definition demo_columns : list string :=
  ["Customer_ID"; "Age"] ++ categorical_columns ++ ["Customer_Status"].

Definition demo_row (id : string) (age : Z) (fill reason : string) (status : string)
  : list cell :=
  [Some (VStr id); Some (VNum age)]
  ++ replicate 19 (Some (VStr fill)) ++ [Some (VStr reason)]
  ++ [Some (VStr status)].

Definition demo_result : SqlResult :=
  {| description := demo_columns;
     fetched :=
       [ demo_row "0002-ORFBO" 37 "Yes" "Price" "Churned";
         demo_row "0003-MKNFE" 46 "No" "Moved" "Stayed";
         [Some (VStr "0004-TLHLJ"); None] ++ replicate 21 (Some (VStr "No"));
         demo_row "0011-IGKFF" 78 "Yes" "Attitude" "Churned" ] |}.

Definition demo_df : DataFrame := from_records demo_result.

(** ** Data loader *)

Module Loader.

Inductive conn_state : Type := NotConnected | Open | Closed.

Inductive event : Type := EvConnect | EvReadSql | EvClose.

(** What the cell can observe of the outside: the state of the database
    connection and the calls made so far. *)
Record world : Type := mkWorld {
  conn : conn_state;
  calls : list event
}.

Definition initial : world := {| conn := NotConnected; calls := [] |}.

(** A computation that may raise; the world it leaves behind is kept in
    both cases. *)
Definition M (A : Type) : Type := world -> res A * world.

Definition ret {A} (a : A) : M A := fun w => (Ok a, w).

Definition mbind {A B} (m : M A) (k : A -> M B) : M B :=
  fun w => match m w with
           | (Ok a, w') => k a w'
           | (Raise e, w') => (Raise e, w')
           end.

Notation "x <~ m ;; k" := (mbind m (fun x => k))
  (at level 100, m at next level, right associativity).

(** The answers of the database server: whether the connection is
    accepted and what the query returns. *)
Record server : Type := mkServer {
  on_connect : res unit;
  on_query : res SqlResult
}.

Section Cell.
Variable srv : server.

(** [pyodbc.connect(...)] *)
Definition pyodbc_connect : M unit := fun w =>
  match on_connect srv with
  | Ok _ => (Ok tt, {| conn := Open; calls := calls w ++ [EvConnect] |})
  | Raise e => (Raise e, {| conn := conn w; calls := calls w ++ [EvConnect] |})
  end.

(** [pd.read_sql(query, conn)] *)
Definition read_sql : M DataFrame := fun w =>
  let w' := {| conn := conn w; calls := calls w ++ [EvReadSql] |} in
  match on_query srv with
  | Ok r => (Ok (from_records r), w')
  | Raise e => (Raise e, w')
  end.

(** [conn.close()] *)
Definition conn_close : M unit := fun w =>
  (Ok tt, {| conn := Closed; calls := calls w ++ [EvClose] |}).

(** The first three statements of the cell. *)
Definition load : M DataFrame :=
  _ <~ pyodbc_connect ;;
  df <~ read_sql ;;
  _ <~ conn_close ;;
  ret df.
End Cell.

(** The connection is released: none was opened, or it was closed. *)
Definition released (w : world) : Prop := conn w <> Open.

(** A server that accepts the connection and fails the query. *)
Definition failing_query : server :=
  {| on_connect := Ok tt;
     on_query := Raise (DatabaseError "Invalid object name") |}.

End Loader.

(** ** Training cell *)

(** Result of [accuracy_score]: a float, which is NaN for an average over
    nothing.  The finite values are kept as exact rationals. *)
Inductive score : Type :=
  | NaN
  | Fin (q : Q).

Record Split : Type := mkSplit {
  X_train : DataFrame;
  X_test : DataFrame;
  y_train : Series;
  y_test : Series
}.

Definition test_size : Q := 3 # 10.
Definition random_state : Z := 42%Z.
Definition max_iter : nat := 1000.

(** [x[i], x[j] = x[j], x[i]].  The shuffle only swaps positions inside
    the array; a position outside of it leaves the array as it is. *)
Definition swap (i j : nat) (l : list nat) : list nat :=
  match l !! i, l !! j with
  | Some a, Some b => <[i := b]> (<[j := a]> l)
  | _, _ => l
  end.

(** scikit-learn's [_validate_shuffle_split] for a float [test_size] and
    [train_size=None]. *)
Definition validate_shuffle_split (n_samples : nat) (size : Q) : res (nat * nat) :=
  let n_test := Z.to_nat (Qceiling (size * inject_Z (Z.of_nat n_samples))) in
  let n_train := n_samples - n_test in
  if decide (n_train = 0)
  then Raise (ValueError "the resulting train set will be empty")
  else Ok (n_train, n_test).

(** The sample at position [i]. *)
Definition row_at (X : DataFrame) (i : nat) : list cell :=
  map (fun p => nth i p.2 None) (data X).

(** [np.average] of a boolean array. *)
Definition average (hits : list bool) : score :=
  match hits with
  | [] => NaN
  | _ => Fin (inject_Z (Z.of_nat (count_occ bool_dec hits true))
              / inject_Z (Z.of_nat (length hits)))
  end.

(** [accuracy_score(y_true, y_pred)] with [normalize=True]. *)
Definition accuracy_score (y_true : Series) (y_pred : list Z) : res score :=
  if decide (length (s_values y_true) = length y_pred)
  then Ok (average (zip_with (fun t p => bool_decide (t = Some (VNum p)))
                             (s_values y_true) y_pred))
  else Raise (ValueError "inconsistent numbers of samples").

(** numpy's bit generator: its state, seeding, and the draw of an integer
    in [0, max].  The generator itself is not modelled. *)
Record BitGenerator : Type := mkBitGenerator {
  rng : Type;
  RandomState : Z -> rng;
  random_interval : rng -> nat -> nat * rng
}.

(** The logistic-regression solver: its parameter vector, the start, one
    L-BFGS iteration, the stopping test, and the class the fitted model
    predicts for one sample.  Their arithmetic is not modelled; neither is
    the grammar of float literals: [float_literal s] tells whether numpy
    converts the string [s] to a finite float. *)
Record Solver : Type := mkSolver {
  params : Type;
  init_params : DataFrame -> params;
  lbfgs_step : DataFrame -> Series -> params -> params;
  lbfgs_converged : DataFrame -> Series -> params -> bool;
  decision : params -> list cell -> Z;
  float_literal : string -> bool
}.

Section Trainer.

Variable gen : BitGenerator.
Variable solver : Solver.

(** [check_random_state(seed)]: the process-wide generator for [None], a
    fresh seeded one for an integer. *)
Definition check_random_state (global : rng gen) (seed : option Z) : rng gen :=
  match seed with
  | None => global
  | Some s => RandomState gen s
  end.

(** [for i in reversed(range(1, n)): j = random_interval(i); swap] *)
Fixpoint shuffle (i : nat) (st : rng gen) (l : list nat) : list nat :=
  match i with
  | 0 => l
  | S i' => let (j, st') := random_interval gen st i in shuffle i' st' (swap i j l)
  end.

(** [rng.permutation(n)] *)
Definition permutation (st : rng gen) (n : nat) : list nat :=
  shuffle (n - 1) st (seq 0 n).

(** [train_test_split(X, y, test_size=size, random_state=seed)] *)
Definition train_test_split (global : rng gen) (X : DataFrame) (y : Series)
    (size : Q) (seed : option Z) : res Split :=
  if decide (length (s_values y) = nrows X) then
    sizes <- validate_shuffle_split (nrows X) size ;;
    let perm := permutation (check_random_state global seed) (nrows X) in
    let test := take sizes.2 perm in
    let train := take sizes.1 (drop sizes.2 perm) in
    Ok {| X_train := iloc train X; X_test := iloc test X;
          y_train := iloc_series train y; y_test := iloc_series test y |}
  else Raise (ValueError "inconsistent numbers of samples").

(** The solver loop, cut off after [fuel] iterations; returns the
    parameters and the number of iterations run. *)
Fixpoint lbfgs (fuel : nat) (X : DataFrame) (y : Series) (w : params solver)
    (n_iter : nat) : params solver * nat :=
  match fuel with
  | 0 => (w, n_iter)
  | S fuel' =>
      if lbfgs_converged solver X y w then (w, n_iter)
      else lbfgs fuel' X y (lbfgs_step solver X y w) (S n_iter)
  end.

(** A cell numpy converts to a float: a number, a string that spells one,
    or a missing value (NaN). *)
Definition converts (c : cell) : bool :=
  match c with
  | Some (VNum _) => true
  | Some (VStr s) => float_literal solver s
  | None => true
  end.

(** scikit-learn's [check_array] on a frame: there is a column and a row,
    every cell converts to a float, and none is missing. *)
Definition check_array (X : DataFrame) : res unit :=
  if decide (data X = [])
  then Raise (ValueError "at least one array or dtype is required")
  else if forallb (fun p => forallb converts p.2) (data X) then
    if forallb (fun p => forallb notna p.2) (data X) then
      if decide (nrows X = 0)
      then Raise (ValueError "Found array with 0 sample(s)")
      else Ok tt
    else Raise (ValueError "Input X contains NaN")
  else Raise (ValueError "could not convert string to float").

(** [LogisticRegression(max_iter=...).fit(X, y)] *)
Definition fit (iters : nat) (X : DataFrame) (y : Series)
  : res (params solver * nat) :=
  _ <- check_array X ;;
  if forallb notna (s_values y) then
    if decide (length (s_values y) = nrows X) then
      if decide (length (unique (omap id (s_values y))) < 2)
      then Raise (ValueError "the data contains only one class")
      else Ok (lbfgs iters X y (init_params solver X) 0)
    else Raise (ValueError "inconsistent numbers of samples")
  else Raise (ValueError "Input y contains NaN").

(** [model.predict(X)] *)
Definition predict (w : params solver) (X : DataFrame) : res (list Z) :=
  _ <- check_array X ;;
  Ok (map (fun i => decision solver w (row_at X i)) (seq 0 (nrows X))).

Record Trained : Type := mkTrained {
  split : Split;
  model : params solver;
  n_iter_ : nat;
  y_pred : list Z;
  accuracy : score
}.

Definition training_cell (global : rng gen) (df : DataFrame) : res Trained :=
  X <- drop_columns ["Churn"] df ;;
  y <- getitem "Churn" df ;;
  sp <- train_test_split global X y test_size (Some random_state) ;;
  fitted <- fit max_iter (X_train sp) (y_train sp) ;;
  pred <- predict fitted.1 (X_test sp) ;;
  acc <- accuracy_score (y_test sp) pred ;;
  Ok {| split := sp; model := fitted.1; n_iter_ := fitted.2;
        y_pred := pred; accuracy := acc |}.

End Trainer.

Arguments split {solver} t.
Arguments model {solver} t.
Arguments n_iter_ {solver} t.
Arguments y_pred {solver} t.
Arguments accuracy {solver} t.

(** The number of samples whose predicted label is the true label. *)
Definition n_correct (y_true : list cell) (y_pred : list Z) : nat :=
  length (filter (fun tp => tp.1 = Some (VNum tp.2)) (zip y_true y_pred)).

(** Every column holds one cell per row label. *)
Definition well_shaped (df : DataFrame) : Prop :=
  Forall (fun p => length p.2 = nrows df) (data df).

(** A linear congruential generator and a one-feature threshold model, to
    run the training cell on. *)
Definition demo_gen : BitGenerator :=
  {| rng := Z;
     RandomState := fun seed => seed;
     random_interval := fun st max =>
       (Z.to_nat (st mod Z.of_nat (S max)), (st * 1103515245 + 12345) mod 2147483648)%Z |}.

Definition demo_solver : Solver :=
  {| params := Z;
     init_params := fun _ => 0%Z;
     lbfgs_step := fun _ _ w => (w + 10)%Z;
     lbfgs_converged := fun _ _ w => (40 <=? w)%Z;
     decision := fun w row =>
       match row with
       | Some (VNum age) :: _ => if (w <? age)%Z then 1%Z else 0%Z
       | _ => 0%Z
       end;
     float_literal := fun s =>
       match s with
       | EmptyString => false
       | _ => forallb (fun a => (48 <=? Ascii.nat_of_ascii a) && (Ascii.nat_of_ascii a <=? 57))
                      (String.list_ascii_of_string s)
       end |}.

Definition demo_features : DataFrame :=
  match preprocess demo_df with
  | Ok out => out
  | Raise _ => demo_df
  end.

(** ** Tracking and registration cells *)

(** The answer of a remote service to one call, and the error that ends a
    cell: a failed call, or a Python exception of the earlier cells. *)
Inductive outcome : Type :=
  | Succeeds
  | Fails (msg : string).

Inductive service_error : Type :=
  | ServiceError (msg : string)
  | PythonError (e : exn).

(** A computation over a world [W] that may raise; the world it leaves
    behind is kept in both cases. *)
Definition SE (W A : Type) : Type := W -> (service_error + A) * W.

Definition se_ret {W A} (a : A) : SE W A := fun w => (inr a, w).

Definition se_bind {W A B} (m : SE W A) (k : A -> SE W B) : SE W B :=
  fun w => match m w with
           | (inr a, w') => k a w'
           | (inl e, w') => (inl e, w')
           end.

(** A computation of the earlier cells, run in the world [W]. *)
Definition se_lift {W A} (m : res A) : SE W A :=
  fun w => match m with
           | Ok a => (inr a, w)
           | Raise e => (inl (PythonError e), w)
           end.

Notation "x <-- m ;; k" := (se_bind m (fun x => k))
  (at level 100, m at next level, right associativity).

(** The first [n] rows: [df[:n]]. *)
Definition head_rows (n : nat) (df : DataFrame) : DataFrame :=
  {| index := take n (index df);
     data := map (fun p => (p.1, take n p.2)) (data df) |}.

Module Tracking.

(** The model signature [infer_signature] derives: the input column names.
    The column types are not modelled. *)
Record Signature : Type := mkSignature {
  input_columns : list string
}.

Inductive event : Type :=
  EvStartRun | EvLogMetric | EvInferSignature | EvLogModel | EvEndRun.

(** The answers to the calls of the cell: the four calls to the tracking
    server (the last one made by [end_run]), and whether mlflow maps the
    column types of the training data to a schema. *)
Record server : Type := mkServer {
  on_start_run : outcome;
  on_log_metric : outcome;
  on_infer_signature : outcome;
  on_log_model : outcome;
  on_set_terminated : outcome
}.

Section Cell.
Variable solver : Solver.

Record LoggedModel : Type := mkLoggedModel {
  artifact_path : string;
  logged : params solver;
  signature : Signature;
  input_example : DataFrame
}.

Record Run : Type := mkRun {
  metrics : list (string * score);
  models : list LoggedModel
}.

Definition new_run : Run := {| metrics := []; models := [] |}.

(** The tracking state of the kernel and the server: the active run, the
    runs the server has recorded as ended, and the calls made. *)
Record session : Type := mkSession {
  active_run : option Run;
  finished : list Run;
  calls : list event
}.

Definition called (ev : event) (s : session) : session :=
  {| active_run := active_run s; finished := finished s; calls := calls s ++ [ev] |}.

Variable srv : server.

(** [mlflow.start_run()]: refuses to start while a run is active. *)
Definition start_run : SE session unit := fun s =>
  let s' := called EvStartRun s in
  match active_run s with
  | Some _ => (inl (ServiceError "Run is already active"), s')
  | None =>
      match on_start_run srv with
      | Fails msg => (inl (ServiceError msg), s')
      | Succeeds => (inr tt, {| active_run := Some new_run; finished := finished s';
                                calls := calls s' |})
      end
  end.

(** [mlflow.log_metric(key, value)]: logs to the active run, starting one
    when there is none. *)
Definition log_metric (key : string) (value : score) : SE session unit := fun s =>
  let s' := called EvLogMetric s in
  match on_log_metric srv with
  | Fails msg => (inl (ServiceError msg), s')
  | Succeeds =>
      let r := default new_run (active_run s) in
      (inr tt, {| active_run := Some {| metrics := metrics r ++ [(key, value)];
                                        models := models r |};
                  finished := finished s'; calls := calls s' |})
  end.

(** [infer_signature(model_input, model_output)] *)
Definition infer_signature (model_input : DataFrame) (model_output : list Z)
  : SE session Signature := fun s =>
  let s' := called EvInferSignature s in
  match on_infer_signature srv with
  | Fails msg => (inl (ServiceError msg), s')
  | Succeeds => (inr {| input_columns := columns model_input |}, s')
  end.

(** [mlflow.sklearn.log_model(model, path, signature=..., input_example=...)] *)
Definition log_model (m : LoggedModel) : SE session unit := fun s =>
  let s' := called EvLogModel s in
  match on_log_model srv with
  | Fails msg => (inl (ServiceError msg), s')
  | Succeeds =>
      let r := default new_run (active_run s) in
      (inr tt, {| active_run := Some {| metrics := metrics r;
                                        models := models r ++ [m] |};
                  finished := finished s'; calls := calls s' |})
  end.

(** [mlflow.end_run()]: takes the active run off the stack, then tells the
    server that it ended; does nothing without an active run. *)
Definition end_run : SE session unit := fun s =>
  let s' := called EvEndRun s in
  match active_run s with
  | Some r =>
      match on_set_terminated srv with
      | Fails msg => (inl (ServiceError msg),
                      {| active_run := None; finished := finished s';
                         calls := calls s' |})
      | Succeeds => (inr tt, {| active_run := None; finished := finished s' ++ [r];
                                calls := calls s' |})
      end
  | None => (inr tt, s')
  end.

(** The tracking cell, on the results of the training cell. *)
Definition tracking_cell (t : Trained solver) : SE session unit :=
  _ <-- start_run ;;
  _ <-- log_metric "accuracy" (accuracy t) ;;
  pred <-- se_lift (predict solver (model t) (X_train (split t))) ;;
  sig <-- infer_signature (X_train (split t)) pred ;;
  _ <-- log_model {| artifact_path := "logistic_regression_model";
                     logged := model t;
                     signature := sig;
                     input_example := head_rows 5 (X_train (split t)) |} ;;
  end_run.

(** The run as it stands after the metric is logged. *)
Definition metric_logged (t : Trained solver) : Run :=
  {| metrics := [("accuracy", accuracy t)]; models := [] |}.

(** The run the cell logs when every call succeeds. *)
Definition logged_run (t : Trained solver) : Run :=
  {| metrics := [("accuracy", accuracy t)];
     models := [ {| artifact_path := "logistic_regression_model";
                    logged := model t;
                    signature := {| input_columns := columns (X_train (split t)) |};
                    input_example := head_rows 5 (X_train (split t)) |} ] |}.

End Cell.

Arguments metrics {solver} r.
Arguments models {solver} r.
Arguments active_run {solver} s.
Arguments finished {solver} s.
Arguments calls {solver} s.
Arguments metric_logged {solver} t.
Arguments logged_run {solver} t.

End Tracking.

Module Registry.

(** A registered model: its name, the uploaded file and the description. *)
Record entry : Type := mkEntry {
  model_name : string;
  content : list Byte.byte;
  description : string
}.

(** The files on the local disk and the entries of the cloud registry. *)
Record world : Type := mkWorld {
  disk : gmap string (list Byte.byte);
  registry : list entry
}.

(** How a write of a file ends: all of it written, the file not opened, or
    the write failing after the file was opened for writing, which leaves
    what had been written by then. *)
Inductive dump_outcome : Type :=
  | Dumped
  | OpenFails (msg : string)
  | WriteFails (msg : string) (written : list Byte.byte).

(** The answers to the workspace lookup, the write to disk and the
    registration call. *)
Record service : Type := mkService {
  on_from_config : outcome;
  on_dump : dump_outcome;
  on_register : outcome
}.

Section Cell.
Variable solver : Solver.

(** The serialization [joblib.dump] writes; the pickle format is not
    modelled. *)
Variable dumps : params solver -> list Byte.byte.

Variable svc : service.

(** [Workspace.from_config()] *)
Definition from_config : SE world unit := fun w =>
  match on_from_config svc with
  | Fails msg => (inl (ServiceError msg), w)
  | Succeeds => (inr tt, w)
  end.

(** [joblib.dump(obj, path)]: opens the file for writing, which replaces an
    older one, and pickles the object into it. *)
Definition joblib_dump (obj : params solver) (path : string) : SE world unit := fun w =>
  match on_dump svc with
  | OpenFails msg => (inl (ServiceError msg), w)
  | WriteFails msg written =>
      (inl (ServiceError msg), {| disk := <[path := written]> (disk w);
                                  registry := registry w |})
  | Dumped => (inr tt, {| disk := <[path := dumps obj]> (disk w);
                          registry := registry w |})
  end.

(** [Model.register(workspace, model_name, model_path, description)]:
    uploads the file at [model_path] as a new entry. *)
Definition register (name path descr : string) : SE world entry := fun w =>
  match disk w !! path with
  | None => (inl (ServiceError "model_path does not exist"), w)
  | Some bytes =>
      match on_register svc with
      | Fails msg => (inl (ServiceError msg), w)
      | Succeeds =>
          let e := {| model_name := name; content := bytes; description := descr |} in
          (inr e, {| disk := disk w; registry := registry w ++ [e] |})
      end
  end.

(** The registration cell, on the fitted classifier. *)
Definition registration_cell (fitted : params solver) : SE world entry :=
  _ <-- from_config ;;
  _ <-- joblib_dump fitted "logistic_regression_model.pkl" ;;
  register "customer_churn_model" "logistic_regression_model.pkl"
           "Logistic Regression model for customer churn prediction".

End Cell.

End Registry.

(** A tracking server that stores the metric and then refuses the model. *)
Definition demo_tracker : Tracking.server :=
  {| Tracking.on_start_run := Succeeds;
     Tracking.on_log_metric := Succeeds;
     Tracking.on_infer_signature := Succeeds;
     Tracking.on_log_model := Fails "artifact store unavailable";
     Tracking.on_set_terminated := Succeeds |}.

(** A query result whose rows all have the same 'Churn_Category' and the
    same 'Churn_Reason'. *)
Definition demo_one_category : SqlResult :=
  {| description := demo_columns;
     fetched :=
       [ demo_row "0002-ORFBO" 37 "Competitor" "Price" "Churned";
         demo_row "0003-MKNFE" 46 "Competitor" "Price" "Stayed";
         demo_row "0011-IGKFF" 78 "Competitor" "Price" "Churned" ] |}.

(** The result of the training cell on the demonstration table (a
    placeholder when it raises). *)
Definition demo_trained : Trained demo_solver :=
  match training_cell demo_gen demo_solver 0%Z demo_features with
  | Ok t => t
  | Raise _ =>
      mkTrained demo_solver
        {| X_train := demo_features; X_test := demo_features;
           y_train := {| s_index := []; s_values := [] |};
           y_test := {| s_index := []; s_values := [] |} |}
        0%Z 0 [] NaN
  end.

(** A query result without a status column, and one whose complete rows
    all churned. *)
Definition demo_no_status : SqlResult :=
  {| description := ["Customer_ID"; "Age"];
     fetched := [[Some (VStr "0002-ORFBO"); Some (VNum 37)]] |}.

Definition demo_all_churned : SqlResult :=
  {| description := demo_columns;
     fetched :=
       [ demo_row "0002-ORFBO" 37 "Yes" "Price" "Churned";
         demo_row "0005-XTVOP" 52 "No" "Moved" "Churned";
         demo_row "0011-IGKFF" 78 "Yes" "Attitude" "Churned" ] |}.

(** A query result with a single complete row. *)
Definition demo_single : SqlResult :=
  {| description := demo_columns;
     fetched :=
       [ demo_row "0002-ORFBO" 37 "Yes" "Price" "Churned";
         [Some (VStr "0004-TLHLJ"); None] ++ replicate 21 (Some (VStr "No")) ] |}.

Definition demo_single_features : DataFrame :=
  match preprocess (from_records demo_single) with
  | Ok out => out
  | Raise _ => demo_df
  end.

Definition demo_all_churned_features : DataFrame :=
  match preprocess (from_records demo_all_churned) with
  | Ok out => out
  | Raise _ => demo_df
  end.

(** * Properties *)

(** ** Columns and positional selection *)

Lemma length_take_pos {A} (d : A) pos l : length (take_pos d pos l) = length pos.
Proof. unfold take_pos. by rewrite length_map. Qed.

Lemma take_pos_seq pos n :
  Forall (fun i => i < n) pos -> take_pos 0 pos (seq 0 n) = pos.
Proof.
  unfold take_pos. induction 1 as [|i pos Hi _ IH]; simpl; [done|].
  rewrite IH. f_equal. by rewrite seq_nth.
Qed.

Lemma lookup_map {A B} (f : A -> B) (l : list A) i : map f l !! i = f <$> l !! i.
Proof. apply list_lookup_fmap. Qed.

Lemma lookup_col_None c d : lookup_col c d = None <-> c ∉ d.*1.
Proof.
  induction d as [|[name vals] d IH]; simpl.
  - split; [intros _; apply not_elem_of_nil | done].
  - rewrite not_elem_of_cons. case_decide; subst.
    + split; [done | intros [? _]; done].
    + rewrite IH. split; [intros ?; split; [congruence | done] | intros [_ ?]; done].
Qed.

Lemma lookup_col_Some_elem c d vals : lookup_col c d = Some vals -> (c, vals) ∈ d.
Proof.
  induction d as [|[name v] d IH]; simpl; [done|].
  case_decide; subst.
  - intros [= ->]. apply list_elem_of_here.
  - intros H'. apply list_elem_of_further. by apply IH.
Qed.

Lemma lookup_col_app c d1 d2 :
  lookup_col c (d1 ++ d2)
  = match lookup_col c d1 with Some v => Some v | None => lookup_col c d2 end.
Proof.
  induction d1 as [|[name v] d1 IH]; simpl; [done|]. by case_decide.
Qed.

Lemma lookup_col_filter c (cols : list string) d :
  c ∉ cols -> lookup_col c (filter (fun p => p.1 ∉ cols) d) = lookup_col c d.
Proof.
  intros Hc. induction d as [|[name v] d IH]; [done|].
  rewrite filter_cons. simpl. destruct (decide (name ∉ cols)) as [Hn|Hn]; simpl.
  - by rewrite IH.
  - case_decide; [subst; done | done].
Qed.

Lemma lookup_col_setitem c vals df :
  lookup_col c (data (setitem c vals df)) = Some vals.
Proof.
  unfold setitem, columns. simpl. case_decide as Hin.
  - induction (data df) as [|[name v] d IH]; [by apply elem_of_nil in Hin|].
    simpl in *. destruct (decide (name = c)) as [->|Hne]; simpl.
    + by rewrite decide_True.
    + rewrite decide_False by done. apply IH.
      apply elem_of_cons in Hin as [?|?]; [congruence | done].
  - rewrite lookup_col_app. apply lookup_col_None in Hin. rewrite Hin. simpl.
    by rewrite decide_True.
Qed.

Lemma lookup_col_setitem_ne c c' vals df :
  c' <> c -> lookup_col c' (data (setitem c vals df)) = lookup_col c' (data df).
Proof.
  intros Hne. unfold setitem. simpl. case_decide as Hin.
  - clear Hin. induction (data df) as [|[name v] d IH]; [done|].
    simpl. destruct (decide (name = c)) as [->|Hn]; simpl.
    + rewrite !decide_False by congruence. done.
    + case_decide; [done | apply IH].
  - rewrite lookup_col_app. destruct (lookup_col c' (data df)); [done|].
    simpl. by rewrite decide_False by congruence.
Qed.

Lemma index_setitem c vals df : index (setitem c vals df) = index df.
Proof. done. Qed.

Lemma get_dummies_Ok cols b df out :
  get_dummies cols b df = Ok out ->
  exists to_encode,
    select_columns cols df = Ok to_encode /\
    index out = index df /\
    data out = filter (fun p => p.1 ∉ cols) (data df)
               ++ concat (map (fun p => get_dummies_1d b p.1 p.2) to_encode).
Proof.
  unfold get_dummies. destruct (select_columns cols df) as [enc|e]; simpl; [|done].
  intros [= <-]. by exists enc.
Qed.

Lemma drop_columns_Ok cols df out :
  drop_columns cols df = Ok out ->
  index out = index df /\ data out = filter (fun p => p.1 ∉ cols) (data df).
Proof.
  unfold drop_columns. destruct (first_missing cols df); [done|]. by intros [= <-].
Qed.

Lemma first_missing_None cols df :
  first_missing cols df = None <-> Forall (fun c => c ∈ columns df) cols.
Proof.
  induction cols as [|c cols IH]; simpl.
  - split; [constructor | done].
  - rewrite Forall_cons. case_decide; [rewrite IH; tauto|].
    split; [done | tauto].
Qed.

(** The four statements of the cell, unfolded. *)
Lemma preprocess_Ok df out :
  preprocess df = Ok out ->
  exists status df3,
    getitem "Customer_Status" (dropna df) = Ok status /\
    get_dummies categorical_columns true
      (setitem "Churn" (map churn_lambda (s_values status)) (dropna df)) = Ok df3 /\
    drop_columns ["Customer_ID"; "Customer_Status"] df3 = Ok out.
Proof.
  intros H. unfold preprocess, preprocessing_cell, run, run_stmt in H.
  cbn [bind] in H.
  destruct (getitem "Customer_Status" (dropna df)) as [status|e] eqn:Hs;
    cbn [bind] in H; [|done].
  destruct (get_dummies _ _ _) as [df3|e] eqn:Hg; cbn [bind] in H; [|done].
  destruct (drop_columns _ df3) as [df4|e] eqn:Hd; cbn [bind] in H; [|done].
  injection H as <-. by exists status, df3.
Qed.

Lemma preprocess_index df out :
  preprocess df = Ok out -> index out = index (dropna df).
Proof.
  intros Hp. destruct (preprocess_Ok _ _ Hp) as (status & df3 & _ & Hg & Hd).
  apply get_dummies_Ok in Hg as (_ & _ & Hi & _).
  apply drop_columns_Ok in Hd as [Hi' _]. by rewrite Hi', Hi.
Qed.

(** The label column survives encoding and pruning untouched. *)
Lemma preprocess_churn df out status :
  preprocess df = Ok out ->
  getitem "Customer_Status" (dropna df) = Ok status ->
  lookup_col "Churn" (data out) = Some (map churn_lambda (s_values status)).
Proof.
  intros Hp Hs'. destruct (preprocess_Ok _ _ Hp) as (status' & df3 & Hs & Hg & Hd).
  rewrite Hs in Hs'. injection Hs' as ->.
  apply get_dummies_Ok in Hg as (enc & _ & _ & Hdata).
  apply drop_columns_Ok in Hd as [_ Hdata'].
  rewrite Hdata', lookup_col_filter by compute_done.
  rewrite Hdata, lookup_col_app, lookup_col_filter by compute_done.
  by rewrite lookup_col_setitem.
Qed.

(** C1: for every row that survives the missing-value filter, the label
    column 'Churn' of the preprocessed frame holds 1 if the row's
    'Customer_Status' is 'Churned', and 0 otherwise. *)
Theorem churn_label_iff_churned df out :
  preprocess df = Ok out ->
  exists status churn,
    getitem "Customer_Status" (dropna df) = Ok status /\
    getitem "Churn" out = Ok churn /\
    s_index churn = s_index status /\
    length (s_values churn) = length (s_values status) /\
    forall i x, s_values status !! i = Some x ->
      exists l, s_values churn !! i = Some (Some (VNum l)) /\
                (l = 1%Z <-> x = Some (VStr "Churned")) /\
                (l = 0%Z <-> x <> Some (VStr "Churned")).
Proof.
  intros Hp. destruct (preprocess_Ok _ _ Hp) as (status & df3 & Hs & _ & _).
  pose proof (preprocess_churn _ _ _ Hp Hs) as Hc.
  exists status, {| s_index := index out; s_values := map churn_lambda (s_values status) |}.
  split; [done|]. split; [unfold getitem; by rewrite Hc|]. simpl.
  split.
  { rewrite (preprocess_index _ _ Hp). unfold getitem in Hs.
    destruct (lookup_col _ _); [|done]. by injection Hs as <-. }
  split; [by rewrite length_map|].
  intros i x Hx. unfold churn_lambda.
  exists (if decide (x = Some (VStr "Churned")) then 1%Z else 0%Z).
  split; [by rewrite lookup_map, Hx|].
  case_decide; split; split; done.
Qed.

Lemma churn_label_iff_churned_witness :
  exists status churn,
    getitem "Customer_Status" (dropna demo_df) = Ok status
    /\ getitem "Churn" demo_features = Ok churn
    /\ s_values status = [Some (VStr "Churned"); Some (VStr "Stayed"); Some (VStr "Churned")]
    /\ s_values churn = [Some (VNum 1); Some (VNum 0); Some (VNum 1)].
Proof.
  assert (Hp : preprocess demo_df = Ok demo_features) by (by vm_compute).
  destruct (churn_label_iff_churned demo_df demo_features Hp)
    as (status & churn & Hs & Hc & _ & _ & _).
  exists status, churn. split; [done|]. split; [done|].
  vm_compute in Hs, Hc. injection Hs as <-. injection Hc as <-. done.
Defined.

(** ** Missing-value filter *)

Lemma nth_map_lookup {A B} (g : A -> B) (l : list A) i a d :
  l !! i = Some a -> nth i (map g l) d = g a.
Proof. intros H. by rewrite nth_lookup, lookup_map, H. Qed.

Lemma row_complete_from_records r i row :
  fetched r !! i = Some row ->
  row_complete (from_records r) i = true
  <-> forall j c, description r !! j = Some c -> nth j row None <> None.
Proof.
  intros Hrow. unfold row_complete. rewrite forallb_forall. simpl. split.
  - intros H j c Hc. specialize (H (c, map (fun row => nth j row None) (fetched r))).
    simpl in H. rewrite (nth_map_lookup _ _ _ _ _ Hrow) in H.
    intros Hnone. rewrite Hnone in H. apply diff_false_true, H.
    apply list_elem_of_In, elem_of_lookup_imap. by exists j, c.
  - intros H p Hp. apply list_elem_of_In, elem_of_lookup_imap in Hp
      as (j & c & -> & Hc). simpl.
    rewrite (nth_map_lookup _ _ _ _ _ Hrow).
    specialize (H j c Hc). by destruct (nth j row None).
Qed.

Lemma dropna_index_from_records r :
  index (dropna (from_records r))
  = filter (fun i => row_complete (from_records r) i = true)
           (seq 0 (length (fetched r))).
Proof.
  unfold dropna, nrows. simpl. rewrite length_seq. apply take_pos_seq.
  apply Forall_forall. intros i [_ Hi]%list_elem_of_filter.
  apply elem_of_seq in Hi. lia.
Qed.

(** C10: the missing-value filter runs over all columns and before
    anything else: the rows of the preprocessed frame are exactly the
    fetched rows without a missing value in any column of the query result,
    so a row with a missing value in any column, also one that is dropped or
    encoded later, is absent from the result. *)
Theorem dropna_excludes_incomplete_rows r out :
  preprocess (from_records r) = Ok out ->
  index out = filter (fun i => row_complete (from_records r) i = true)
                     (seq 0 (length (fetched r)))
  /\ (forall i row j c,
        fetched r !! i = Some row -> description r !! j = Some c ->
        nth j row None = None -> i ∉ index out)
  /\ (forall i row,
        fetched r !! i = Some row ->
        (i ∈ index out
         <-> forall j c, description r !! j = Some c -> nth j row None <> None)).
Proof.
  intros Hp. pose proof (preprocess_index _ _ Hp) as Hi.
  rewrite dropna_index_from_records in Hi.
  assert (Hiff : forall i row, fetched r !! i = Some row ->
            (i ∈ index out
             <-> forall j c, description r !! j = Some c -> nth j row None <> None)).
  { intros i row Hrow. rewrite Hi, list_elem_of_filter, elem_of_seq.
    rewrite (row_complete_from_records _ _ _ Hrow).
    apply lookup_lt_Some in Hrow. split; [tauto | intros; split; [done | lia]]. }
  split; [done|]. split; [|done].
  intros i row j c Hrow Hc Hnone Hin.
  destruct (Hiff i row Hrow) as [Hall _]. by apply (Hall Hin j c Hc).
Qed.

Lemma dropna_excludes_incomplete_rows_witness :
  (2 ∉ index demo_features) /\ index demo_features = [0; 1; 3].
Proof.
  assert (Hp : preprocess (from_records demo_result) = Ok demo_features)
    by (by vm_compute).
  destruct (dropna_excludes_incomplete_rows demo_result demo_features Hp)
    as (Hi & Hex & _).
  split.
  - apply (Hex 2 ([Some (VStr "0004-TLHLJ"); None] ++ replicate 21 (Some (VStr "No")))
               1 "Age"); reflexivity.
  - rewrite Hi. vm_compute. reflexivity.
Defined.

(** ** One-hot expansion *)

Lemma insert_sorted_perm v l : insert_sorted v l ≡ₚ v :: l.
Proof.
  induction l as [|x l IH]; simpl; [done|].
  destruct (value_leb v x); [done|]. rewrite IH. apply Permutation_swap.
Qed.

Lemma sort_values_perm l : sort_values l ≡ₚ l.
Proof.
  induction l as [|x l IH]; simpl; [done|].
  by rewrite insert_sorted_perm, IH.
Qed.

Lemma unique_NoDup l : NoDup (unique l).
Proof.
  induction l as [|x l IH]; simpl; [constructor|].
  apply NoDup_cons. split.
  - rewrite list_elem_of_filter. by intros [? _].
  - by apply NoDup_filter.
Qed.

Lemma unique_elem x l : x ∈ unique l <-> x ∈ l.
Proof.
  induction l as [|y l IH]; simpl; [done|].
  rewrite !elem_of_cons, list_elem_of_filter, IH.
  destruct (decide (x = y)); [tauto|]. tauto.
Qed.

Lemma categories_NoDup vals : NoDup (categories vals).
Proof. unfold categories. rewrite sort_values_perm. apply unique_NoDup. Qed.

(** A category is a value the column holds. *)
Lemma categories_elem v vals : v ∈ categories vals <-> Some v ∈ vals.
Proof.
  unfold categories. rewrite sort_values_perm, unique_elem, list_elem_of_omap.
  split; [intros (x & Hx & ?); simpl in *; by subst | intros H; by exists (Some v)].
Qed.

Lemma first_not_kept vals first :
  head (categories vals) = Some first -> first ∉ kept_levels true vals.
Proof.
  unfold kept_levels. pose proof (categories_NoDup vals) as Hnd.
  destruct (categories vals) as [|x l]; simpl; [done|].
  intros [= ->]. by apply NoDup_cons in Hnd as [? _].
Qed.

Lemma dummy_keys_elem cols b df c v :
  (c, v) ∈ dummy_keys cols b df
  <-> c ∈ cols /\ exists vals, lookup_col c (data df) = Some vals
                               /\ v ∈ kept_levels b vals.
Proof.
  unfold dummy_keys. induction cols as [|c' cols IH]; simpl.
  - rewrite elem_of_nil. split; [done | intros [[]%elem_of_nil _]].
  - rewrite elem_of_app, IH, elem_of_cons. clear IH.
    destruct (lookup_col c' (data df)) as [vals'|] eqn:Hl.
    + split.
      * intros [(v' & [= -> ->] & Hv)%list_elem_of_fmap | [? ?]]; [|tauto].
        split; [by left | by exists vals'].
      * intros [[->|?] (vals & Hvals & Hv)]; [|right; split; [done | by exists vals]].
        left. rewrite Hl in Hvals. injection Hvals as ->.
        apply list_elem_of_fmap. by exists v.
    + rewrite elem_of_nil. split.
      * intros [[] | [? ?]]. tauto.
      * intros [[->|?] (vals & Hvals & Hv)]; [congruence|].
        right. split; [done | by exists vals].
Qed.

Lemma select_columns_Ok cols df enc :
  select_columns cols df = Ok enc ->
  Forall (fun c => is_Some (lookup_col c (data df))) cols
  /\ concat (map (fun p => get_dummies_1d true p.1 p.2) enc)
     = map (dummy_column df) (dummy_keys cols true df).
Proof.
  revert enc. induction cols as [|c cols IH]; intros enc; simpl.
  - intros [= <-]. by split.
  - unfold dummy_keys. simpl. destruct (lookup_col c (data df)) as [vals|] eqn:Hl; [|done].
    destruct (select_columns cols df) as [rest|e]; simpl; [|done].
    intros [= <-]. destruct (IH rest eq_refl) as [Hall Heq]. split.
    + constructor; [by rewrite Hl | done].
    + simpl. rewrite Heq, map_app. f_equal.
      unfold get_dummies_1d, dummy_column. rewrite map_map. simpl. by rewrite Hl.
Qed.

Lemma get_dummies_data df out :
  get_dummies categorical_columns true df = Ok out ->
  data out = filter (fun p => p.1 ∉ categorical_columns) (data df)
             ++ map (dummy_column df) (dummy_keys categorical_columns true df).
Proof.
  intros (enc & Hsel & _ & ->)%get_dummies_Ok.
  by apply select_columns_Ok in Hsel as [_ ->].
Qed.

(** Indicator names of different encoded columns, or of different string
    categories of one column, differ: no name in the list is another one
    followed by an underscore. *)
Lemma dummy_name_inj c c' s t :
  c ∈ categorical_columns -> c' ∈ categorical_columns ->
  dummy_name c (VStr s) = dummy_name c' (VStr t) -> c = c' /\ s = t.
Proof.
  unfold categorical_columns, dummy_name. intros Hc Hc'.
  repeat (apply elem_of_cons in Hc as [->|Hc]); [..|by apply elem_of_nil in Hc];
    repeat (apply elem_of_cons in Hc' as [->|Hc']);
    try (by apply elem_of_nil in Hc');
    simpl; intros H; by simplify_eq.
Qed.

(** C5: one-hot expansion of the fixed column list with first-category
    dropping creates no indicator column for the first category of any
    listed column: the encoded frame is the untouched columns followed by
    the indicator columns of the kept (column, category) pairs, the pair
    (column, first category) is not among them, and no indicator column
    of a string category bears the name the dropped one would have. *)
Theorem first_category_not_encoded df out c first :
  get_dummies categorical_columns true df = Ok out ->
  c ∈ categorical_columns ->
  first_category c df = Some first ->
  data out = filter (fun p => p.1 ∉ categorical_columns) (data df)
             ++ map (dummy_column df) (dummy_keys categorical_columns true df)
  /\ ((c, first) ∉ dummy_keys categorical_columns true df)
  /\ (forall c' s t, first = VStr s ->
        (c', VStr t) ∈ dummy_keys categorical_columns true df ->
        dummy_name c' (VStr t) <> dummy_name c first).
Proof.
  intros Hg Hc Hfirst.
  assert (Hnot : (c, first) ∉ dummy_keys categorical_columns true df).
  { rewrite dummy_keys_elem. intros (_ & vals & Hl & Hv).
    unfold first_category in Hfirst. rewrite Hl in Hfirst.
    by apply (first_not_kept _ _ Hfirst). }
  split; [by apply get_dummies_data|]. split; [done|].
  intros c' s t -> Hin Hname.
  assert (Hc' : c' ∈ categorical_columns) by (by apply dummy_keys_elem in Hin as [? _]).
  destruct (dummy_name_inj _ _ _ _ Hc' Hc Hname) as [-> ->]. done.
Qed.

Lemma first_category_not_encoded_witness :
  first_category "Churn_Reason" (dropna demo_df) = Some (VStr "Attitude")
  /\ (("Churn_Reason", VStr "Attitude")
       ∉ dummy_keys categorical_columns true (dropna demo_df))
  /\ (("Churn_Reason", VStr "Moved")
       ∈ dummy_keys categorical_columns true (dropna demo_df)).
Proof.
  split; [reflexivity|].
  destruct (get_dummies categorical_columns true (dropna demo_df)) as [out|e] eqn:Hg;
    [|by vm_compute in Hg].
  split.
  - apply (first_category_not_encoded (dropna demo_df) out "Churn_Reason"
             (VStr "Attitude") Hg); [compute_done | reflexivity].
  - compute_done.
Defined.

Lemma lookup_col_columns c d vals : lookup_col c d = Some vals -> c ∈ d.*1.
Proof.
  intros H. apply lookup_col_Some_elem in H.
  apply list_elem_of_fmap. by exists (c, vals).
Qed.

(** The feature matrix of a preprocessed frame: [df.drop(columns=['Churn'])]
    succeeds and keeps every other column. *)
Lemma feature_matrix_Ok df out :
  preprocess df = Ok out ->
  exists X, drop_columns ["Churn"] out = Ok X
            /\ index X = index out
            /\ data X = filter (fun p => p.1 ∉ ["Churn"]) (data out).
Proof.
  intros Hp. destruct (preprocess_Ok _ _ Hp) as (status & _ & Hs & _ & _).
  pose proof (preprocess_churn _ _ _ Hp Hs) as Hc%lookup_col_columns.
  unfold drop_columns.
  replace (first_missing ["Churn"] out) with (@None string).
  - by eexists.
  - symmetry. apply first_missing_None. by repeat constructor.
Qed.

Lemma categories_tail_two_values (vals : list cell) v w :
  Some v ∈ vals -> Some w ∈ vals -> v <> w -> exists u, u ∈ tail (categories vals).
Proof.
  intros Hv%categories_elem Hw%categories_elem Hne.
  destruct (categories vals) as [|a l]; [by apply elem_of_nil in Hv|]. simpl.
  apply elem_of_cons in Hv as [->|Hv]; [|by exists v].
  apply elem_of_cons in Hw as [->|Hw]; [done | by exists w].
Qed.

Lemma categories_tail_constant (vals : list cell) v :
  (forall x, x ∈ vals -> x = Some v) -> tail (categories vals) = [].
Proof.
  intros Hconst. pose proof (categories_NoDup vals) as Hnd.
  assert (Hall : forall a, a ∈ categories vals -> a = v).
  { intros a Ha%categories_elem. specialize (Hconst _ Ha). congruence. }
  destruct (categories vals) as [|a [|b l]]; [done | done |]. exfalso.
  apply NoDup_cons in Hnd as [Hnd _]. apply Hnd.
  rewrite (Hall a), (Hall b); [left | by right; left | by left].
Qed.

(** C9, as the code has it: the categorical column list includes
    'Churn_Category' and 'Churn_Reason', and they are encoded, not dropped
    alongside 'Customer_ID' and 'Customer_Status': on every dataset the
    cell completes on, the feature matrix handed to the trainer contains
    the indicator column of every category of the two columns other than
    the first, dropped one.  So it contains an indicator column derived
    from the column whenever that holds two distinct values over the
    surviving rows; when it holds a single value, or no row survives,
    there is no category but the first and the encoding derives no column
    from it. *)
Theorem churn_outcome_columns_in_features df out :
  preprocess df = Ok out ->
  "Churn_Category" ∈ categorical_columns
  /\ "Churn_Reason" ∈ categorical_columns
  /\ exists X,
       drop_columns ["Churn"] out = Ok X
       /\ forall c, c ∈ ["Churn_Category"; "Churn_Reason"] ->
            (c ∉ ["Customer_ID"; "Customer_Status"])
            /\ exists vals,
                 lookup_col c (data (dropna df)) = Some vals
                 /\ (forall v, v ∈ tail (categories vals) ->
                       (dummy_name c v, map (indicator v) vals) ∈ data X)
                 /\ (forall v w, Some v ∈ vals -> Some w ∈ vals -> v <> w ->
                       exists u, (dummy_name c u, map (indicator u) vals) ∈ data X)
                 /\ (forall v, (forall x, x ∈ vals -> x = Some v) ->
                       tail (categories vals) = []
                       /\ get_dummies_1d true c vals = []).
Proof.
  intros Hp. split; [compute_done|]. split; [compute_done|].
  destruct (feature_matrix_Ok _ _ Hp) as (X & HX & _ & HdX).
  exists X. split; [done|]. intros c Hc.
  assert (Hcat : c ∈ categorical_columns).
  { apply elem_of_cons in Hc as [->|Hc]; [compute_done|].
    apply elem_of_cons in Hc as [->|Hc]; [compute_done | by apply elem_of_nil in Hc]. }
  split.
  { apply elem_of_cons in Hc as [->|Hc]; [compute_done|].
    apply elem_of_cons in Hc as [->|Hc]; [compute_done | by apply elem_of_nil in Hc]. }
  destruct (preprocess_Ok _ _ Hp) as (status & df3 & Hs & Hg & Hd).
  set (df2 := setitem "Churn" (map churn_lambda (s_values status)) (dropna df)) in *.
  assert (Hne : c <> "Churn").
  { intros ->. revert Hcat. compute_done. }
  pose proof (lookup_col_setitem_ne "Churn" c (map churn_lambda (s_values status))
                (dropna df) Hne) as Hl2. fold df2 in Hl2.
  destruct (get_dummies_Ok _ _ _ _ Hg) as (enc & Hsel & _ & _).
  apply select_columns_Ok in Hsel as [Hall _].
  rewrite Forall_forall in Hall. destruct (Hall c Hcat) as [vals Hvals].
  exists vals. split; [by rewrite <- Hl2|].
  assert (Hin : forall v, v ∈ tail (categories vals) ->
            (dummy_name c v, map (indicator v) vals) ∈ data X);
    [|split; [exact Hin|split]].
  2:{ intros v w Hv Hw Hvw.
      destruct (categories_tail_two_values vals v w Hv Hw Hvw) as [u Hu].
      exists u. by apply Hin. }
  2:{ intros v Hconst. pose proof (categories_tail_constant vals v Hconst) as Ht.
      split; [exact Ht|]. unfold get_dummies_1d, kept_levels. by rewrite Ht. }
  intros v Hv.
  apply drop_columns_Ok in Hd as [_ Hdout].
  rewrite HdX, Hdout, (get_dummies_data _ _ Hg).
  assert (Hname : forall cols : list string, cols = ["Churn"] \/
            cols = ["Customer_ID"; "Customer_Status"] -> dummy_name c v ∉ cols).
  { unfold dummy_name. intros cols Hcols.
    apply elem_of_cons in Hc as [->|Hc];
      [|apply elem_of_cons in Hc as [->|Hc]; [|by apply elem_of_nil in Hc]];
      destruct Hcols as [-> | ->]; simpl;
      rewrite ?not_elem_of_cons; repeat split; try done; apply not_elem_of_nil. }
  apply list_elem_of_filter. split; [apply Hname; by left|].
  apply list_elem_of_filter. split; [apply Hname; by right|].
  apply elem_of_app. right. apply list_elem_of_fmap. exists (c, v). split.
  - unfold dummy_column. cbn [fst snd]. by rewrite Hvals.
  - apply dummy_keys_elem. split; [done|]. by exists vals.
Qed.

Lemma churn_outcome_columns_in_features_witness :
  exists X,
    drop_columns ["Churn"] demo_features = Ok X
    /\ ("Churn_Reason_Price", [Some (VNum 1); Some (VNum 0); Some (VNum 0)]) ∈ data X.
Proof.
  assert (Hp : preprocess demo_df = Ok demo_features) by (by vm_compute).
  destruct (churn_outcome_columns_in_features demo_df demo_features Hp)
    as (_ & _ & X & HX & Hcols).
  exists X. split; [done|].
  destruct (Hcols "Churn_Reason") as (_ & vals & Hvals & Hin & _ & _);
    [compute_done|].
  vm_compute in Hvals. injection Hvals as <-.
  apply (Hin (VStr "Price")). compute_done.
Defined.

(** The claim as first stated fails on a dataset whose surviving rows all
    have the same 'Churn_Category' and the same 'Churn_Reason': the cell
    completes, and the feature matrix has no indicator column of either
    column; all it holds is the 'Age' column. *)
Lemma churn_category_without_indicator :
  exists out X,
    preprocess (from_records demo_one_category) = Ok out
    /\ drop_columns ["Churn"] out = Ok X
    /\ columns X = ["Age"]
    /\ forall c v col, c ∈ ["Churn_Category"; "Churn_Reason"] ->
         (dummy_name c v, col) ∉ data X.
Proof.
  eexists _, _. split; [vm_compute; reflexivity|].
  split; [vm_compute; reflexivity|].
  split; [vm_compute; reflexivity|].
  intros c v col Hc Hin. unfold dummy_name in Hin.
  apply elem_of_cons in Hc as [->|Hc];
    [|apply elem_of_cons in Hc as [->|Hc]; [|by apply elem_of_nil in Hc]];
    simpl in Hin;
    repeat (apply elem_of_cons in Hin as [Hin|Hin]; [discriminate Hin|]);
    by apply elem_of_nil in Hin.
Qed.

(** ** Data loader *)

Module LoaderProperties.
Import Loader.

(** What the three statements leave behind, by the server's answers. *)
Lemma load_outcome srv :
  load srv initial =
  match on_connect srv, on_query srv with
  | Ok _, Ok r =>
      (Ok (from_records r),
       {| conn := Closed; calls := [EvConnect; EvReadSql; EvClose] |})
  | Ok _, Raise e =>
      (Raise e, {| conn := Open; calls := [EvConnect; EvReadSql] |})
  | Raise e, _ =>
      (Raise e, {| conn := NotConnected; calls := [EvConnect] |})
  end.
Proof.
  unfold load, mbind, pyodbc_connect, read_sql, conn_close, ret, initial.
  destruct (on_connect srv) as [[]|e]; simpl; [|done].
  by destruct (on_query srv) as [r|e].
Qed.

(** C2, as the code has it: the connection is released when the query
    succeeds, and when the connection is refused there is none to
    release; when [pd.read_sql] raises, the error ends the cell before
    [conn.close()] and the connection stays open. *)
Theorem connection_closed_unless_query_raises srv :
  let w := (load srv initial).2 in
  match on_connect srv, on_query srv with
  | Ok _, Ok r =>
      (load srv initial).1 = Ok (from_records r)
      /\ conn w = Closed /\ last (calls w) = Some EvClose
  | Ok _, Raise e =>
      (load srv initial).1 = Raise e
      /\ conn w = Open /\ ~ In EvClose (calls w)
  | Raise e, _ =>
      (load srv initial).1 = Raise e
      /\ conn w = NotConnected /\ ~ In EvClose (calls w)
  end.
Proof.
  rewrite load_outcome.
  destruct (on_connect srv) as [[]|e]; [destruct (on_query srv) as [r|e]|];
    simpl; repeat split; try done; intros H; decompose [or] H; done.
Qed.

(** The claim fails when the query raises: the loader terminates with the
    error, [conn.close()] was never called and the connection is open. *)
Lemma connection_leaked_when_query_raises :
  (load failing_query initial).1 = Raise (DatabaseError "Invalid object name")
  /\ ~ In EvClose (calls (load failing_query initial).2)
  /\ ~ released (load failing_query initial).2.
Proof.
  split; [reflexivity|]. split.
  - simpl. intros H. decompose [or] H; done.
  - unfold released. simpl. intros H. by apply H.
Qed.

End LoaderProperties.

(** ** Shape of the preprocessed frame *)

Lemma nrows_iloc pos df : nrows (iloc pos df) = length pos.
Proof. unfold nrows. simpl. apply length_take_pos. Qed.

Lemma well_shaped_iloc pos df : well_shaped (iloc pos df).
Proof.
  unfold well_shaped. rewrite nrows_iloc. simpl.
  apply Forall_forall. intros p (q & -> & _)%list_elem_of_fmap. simpl.
  apply length_take_pos.
Qed.

Lemma well_shaped_filter (cols : list string) df out :
  well_shaped df -> index out = index df ->
  data out = filter (fun p => p.1 ∉ cols) (data df) ->
  well_shaped out.
Proof.
  unfold well_shaped, nrows. intros Hw -> ->.
  rewrite Forall_forall in *. intros p [_ Hp]%list_elem_of_filter. by apply Hw.
Qed.

Lemma well_shaped_lookup df c vals :
  well_shaped df -> lookup_col c (data df) = Some vals -> length vals = nrows df.
Proof.
  unfold well_shaped. rewrite Forall_forall.
  intros Hw Hl%lookup_col_Some_elem. by apply (Hw _ Hl).
Qed.

Lemma well_shaped_setitem c vals df :
  well_shaped df -> length vals = nrows df -> well_shaped (setitem c vals df).
Proof.
  unfold well_shaped, setitem, nrows. simpl. intros Hw Hlen. case_decide.
  - apply Forall_forall. intros p (q & -> & Hq)%list_elem_of_fmap.
    case_decide; [done|]. rewrite Forall_forall in Hw. by apply Hw.
  - apply Forall_app. split; [done|]. by repeat constructor.
Qed.

Lemma well_shaped_get_dummies df out :
  well_shaped df -> get_dummies categorical_columns true df = Ok out ->
  well_shaped out.
Proof.
  intros Hw Hg. pose proof (get_dummies_data _ _ Hg) as Hd.
  apply get_dummies_Ok in Hg as (_ & _ & Hi & _).
  unfold well_shaped, nrows. rewrite Hd, Hi. apply Forall_app. split.
  - unfold well_shaped in Hw. rewrite Forall_forall in *.
    intros p [_ Hp]%list_elem_of_filter. by apply Hw.
  - apply Forall_forall. intros p ([c v] & -> & Hk)%list_elem_of_fmap.
    apply dummy_keys_elem in Hk as (_ & vals & Hl & _).
    unfold dummy_column. simpl. rewrite length_map, Hl. simpl.
    by apply (well_shaped_lookup df c).
Qed.

Lemma preprocess_well_shaped df out : preprocess df = Ok out -> well_shaped out.
Proof.
  intros Hp. destruct (preprocess_Ok _ _ Hp) as (status & df3 & Hs & Hg & Hd).
  apply drop_columns_Ok in Hd as [Hi Hdata].
  apply (well_shaped_filter ["Customer_ID"; "Customer_Status"] df3 out); [|done|done].
  apply (well_shaped_get_dummies _ _) in Hg; [done|].
  apply well_shaped_setitem; [apply well_shaped_iloc|].
  rewrite length_map. unfold getitem in Hs.
  destruct (lookup_col _ _) as [vals|] eqn:Hl; [|done]. injection Hs as <-. simpl.
  apply (well_shaped_lookup _ _ _ (well_shaped_iloc _ _) Hl).
Qed.

(** The row labels of a frame loaded from the database stay distinct. *)
Lemma preprocess_index_NoDup r out :
  preprocess (from_records r) = Ok out -> NoDup (index out).
Proof.
  intros Hp. rewrite (preprocess_index _ _ Hp), dropna_index_from_records.
  apply NoDup_filter, NoDup_seq.
Qed.

Lemma feature_matrix_index_NoDup r out X :
  preprocess (from_records r) = Ok out ->
  drop_columns ["Churn"] out = Ok X ->
  NoDup (index X).
Proof.
  intros Hp [-> _]%drop_columns_Ok. by apply (preprocess_index_NoDup r).
Qed.

(** ** Train/test split *)

Lemma n_test_ceiling n :
  Z.to_nat (Qceiling (test_size * inject_Z (Z.of_nat n))) = (3 * n + 9) / 10.
Proof.
  unfold test_size, Qceiling, Qfloor, Qmult, Qopp, inject_Z. simpl Qnum. simpl Qden.
  apply Nat2Z.inj. rewrite Nat2Z.inj_div, Z2Nat.id.
  - rewrite Nat2Z.inj_add, Nat2Z.inj_mul. simpl Z.of_nat.
    change (Z.pos (10 * 1)) with 10%Z.
    generalize (Z.of_nat n). intros z. Z.to_euclidean_division_equations. lia.
  - change (Z.pos (10 * 1)) with 10%Z.
    pose proof (Nat2Z.is_nonneg n). Z.to_euclidean_division_equations. lia.
Qed.

Lemma validate_shuffle_split_Ok n n_train n_test :
  validate_shuffle_split n test_size = Ok (n_train, n_test) ->
  n_test = (3 * n + 9) / 10 /\ n_train = n - n_test /\ 0 < n_train
  /\ n_train + n_test = n.
Proof.
  unfold validate_shuffle_split. rewrite n_test_ceiling.
  set (k := (3 * n + 9) / 10). case_decide as Hz; [done|]. intros [= <- <-].
  repeat split; lia.
Qed.

Lemma validate_shuffle_split_total n :
  2 <= n -> exists n_train n_test, validate_shuffle_split n test_size = Ok (n_train, n_test).
Proof.
  intros Hn. unfold validate_shuffle_split. rewrite n_test_ceiling.
  case_decide as Hz; [|by eexists _, _].
  exfalso. pose proof (Nat.div_mod_eq (3 * n + 9) 10).
  pose proof (Nat.mod_upper_bound (3 * n + 9) 10). lia.
Qed.

Lemma validate_shuffle_split_small n :
  n < 2 -> exists e, validate_shuffle_split n test_size = Raise e.
Proof.
  intros Hn. unfold validate_shuffle_split. rewrite n_test_ceiling.
  assert (n = 0 \/ n = 1) as [-> | ->] by lia; simpl; by eexists.
Qed.

Lemma take_pos_permutation {A} (d : A) pos l :
  pos ≡ₚ seq 0 (length l) -> take_pos d pos l ≡ₚ l.
Proof.
  intros Hp. unfold take_pos. rewrite (Permutation_map _ Hp).
  replace (map (fun i => nth i l d) (seq 0 (length l))) with l; [done|].
  apply list_eq. intros i. rewrite lookup_map.
  destruct (l !! i) as [x|] eqn:Hx.
  - pose proof (lookup_lt_Some _ _ _ Hx).
    rewrite lookup_seq_lt by done. simpl. by rewrite nth_lookup, Hx.
  - apply lookup_ge_None in Hx. by rewrite lookup_seq_ge.
Qed.

Section SplitProperties.

Variable gen : BitGenerator.

Lemma swap_perm i j l : swap i j l ≡ₚ l.
Proof.
  unfold swap. destruct (l !! i) as [a|] eqn:Hi; [|done].
  destruct (l !! j) as [b|] eqn:Hj; [|done].
  by apply Permutation_insert_swap.
Qed.

Lemma shuffle_perm i st l : shuffle gen i st l ≡ₚ l.
Proof.
  revert st l. induction i as [|i IH]; intros st l; simpl; [done|].
  destruct (random_interval gen st (S i)) as [j st']. by rewrite IH, swap_perm.
Qed.

Lemma permutation_perm st n : permutation gen st n ≡ₚ seq 0 n.
Proof. apply shuffle_perm. Qed.

Lemma train_test_split_Ok global X y size seed sp :
  train_test_split gen global X y size seed = Ok sp ->
  exists n_train n_test,
    length (s_values y) = nrows X
    /\ validate_shuffle_split (nrows X) size = Ok (n_train, n_test)
    /\ let perm := permutation gen (check_random_state gen global seed) (nrows X) in
       sp = {| X_train := iloc (take n_train (drop n_test perm)) X;
               X_test := iloc (take n_test perm) X;
               y_train := iloc_series (take n_train (drop n_test perm)) y;
               y_test := iloc_series (take n_test perm) y |}.
Proof.
  unfold train_test_split. case_decide as Hlen; [|done].
  destruct (validate_shuffle_split (nrows X) size) as [[n_train n_test]|e]; [|done].
  simpl. intros [= <-]. by exists n_train, n_test.
Qed.

(** C4: the train and test partitions are disjoint and together make up
    the whole dataset: the selected row positions share no element and
    put together are the positions 0..n-1, each once; so the sizes add up
    to the row count and the row labels of the two partitions are those
    of the dataset, none of them in both when the labels are distinct.
    The split succeeds for every dataset of at least two rows. *)
Theorem train_test_partition global X y :
  match train_test_split gen global X y test_size (Some random_state) with
  | Ok sp =>
      exists train test : list nat,
        X_train sp = iloc train X /\ X_test sp = iloc test X
        /\ y_train sp = iloc_series train y /\ y_test sp = iloc_series test y
        /\ train ++ test ≡ₚ seq 0 (nrows X)
        /\ (forall i, i ∈ train -> i ∉ test)
        /\ nrows (X_train sp) + nrows (X_test sp) = nrows X
        /\ index (X_train sp) ++ index (X_test sp) ≡ₚ index X
        /\ (NoDup (index X) ->
            forall l, l ∈ index (X_train sp) -> l ∉ index (X_test sp))
  | Raise _ => length (s_values y) <> nrows X \/ nrows X < 2
  end.
Proof.
  destruct (train_test_split gen global X y test_size (Some random_state))
    as [sp|e] eqn:Hsp.
  - apply train_test_split_Ok in Hsp as (n_train & n_test & Hlen & Hv & Hsp).
    apply validate_shuffle_split_Ok in Hv as (_ & _ & _ & Hsum).
    cbv zeta in Hsp.
    set (perm := permutation gen (check_random_state gen global (Some random_state))
                   (nrows X)) in *.
    assert (Hperm : perm ≡ₚ seq 0 (nrows X)) by apply permutation_perm.
    assert (Hlp : length perm = nrows X).
    { by rewrite (Permutation_length Hperm), length_seq. }
    assert (Htrain : take n_train (drop n_test perm) = drop n_test perm).
    { apply take_ge. rewrite length_drop. lia. }
    rewrite Htrain in Hsp.
    assert (Hall : drop n_test perm ++ take n_test perm ≡ₚ seq 0 (nrows X)).
    { by rewrite (comm (++)), take_drop. }
    assert (Hnd : NoDup (drop n_test perm ++ take n_test perm)).
    { rewrite Hall. apply NoDup_seq. }
    assert (Hidx : take_pos 0 (drop n_test perm) (index X)
                   ++ take_pos 0 (take n_test perm) (index X) ≡ₚ index X).
    { unfold take_pos. rewrite <- map_app. by apply take_pos_permutation. }
    exists (drop n_test perm), (take n_test perm). subst sp. simpl.
    repeat split; try done.
    + by apply NoDup_app in Hnd as (_ & ? & _).
    + rewrite !nrows_iloc, length_drop, length_take. lia.
    + intros HX. rewrite <- Hidx in HX. by apply NoDup_app in HX as (_ & ? & _).
  - unfold train_test_split in Hsp. case_decide as Hlen; [|by left]. right.
    destruct (decide (nrows X < 2)) as [|Hn]; [done|]. exfalso.
    destruct (validate_shuffle_split_total (nrows X)) as (a & b & Hv); [lia|].
    by rewrite Hv in Hsp.
Qed.

End SplitProperties.

(** ** Accuracy *)

Lemma count_hits (y_true : list cell) (y_pred : list Z) :
  count_occ bool_dec
    (zip_with (fun t p => bool_decide (t = Some (VNum p))) y_true y_pred) true
  = n_correct y_true y_pred.
Proof.
  unfold n_correct. revert y_pred.
  induction y_true as [|t ts IH]; intros [|p ps]; simpl; try done.
  rewrite IH, filter_cons. cbn [fst snd].
  destruct (decide (t = Some (VNum p))) as [Ht|Ht].
  - rewrite bool_decide_eq_true_2 by done. by destruct (bool_dec true true).
  - rewrite bool_decide_eq_false_2 by done. by destruct (bool_dec false true).
Qed.

Lemma average_nonempty hits :
  hits <> [] ->
  average hits = Fin (inject_Z (Z.of_nat (count_occ bool_dec hits true))
                      / inject_Z (Z.of_nat (length hits))).
Proof. by destruct hits. Qed.

Lemma n_correct_le (y_true : list cell) (y_pred : list Z) :
  n_correct y_true y_pred <= length y_pred.
Proof.
  unfold n_correct. etrans; [apply length_filter|].
  rewrite length_zip_with. lia.
Qed.

(** [accuracy_score] on a non-empty sample. *)
Lemma accuracy_score_fraction (y_true : Series) (y_pred : list Z) :
  y_pred <> [] ->
  length (s_values y_true) = length y_pred ->
  exists q : Q,
    accuracy_score y_true y_pred = Ok (Fin q)
    /\ q = (inject_Z (Z.of_nat (n_correct (s_values y_true) y_pred))
            / inject_Z (Z.of_nat (length y_pred)))%Q
    /\ (0 <= q)%Q /\ (q <= 1)%Q.
Proof.
  intros Hne Hlen. unfold accuracy_score. rewrite decide_True by done.
  assert (Hzl : length (zip_with (fun t p => bool_decide (t = Some (VNum p)))
                          (s_values y_true) y_pred) = length y_pred).
  { rewrite length_zip_with. lia. }
  rewrite average_nonempty, count_hits, Hzl.
  2:{ intros Hz. rewrite Hz in Hzl. by destruct y_pred. }
  eexists. split; [done|]. split; [done|].
  pose proof (n_correct_le (s_values y_true) y_pred) as Hle.
  assert (Hpos : (0 < inject_Z (Z.of_nat (length y_pred)))%Q).
  { rewrite <- (Zlt_Qlt 0). destruct y_pred; [done | simpl; lia]. }
  split.
  - apply Qle_shift_div_l; [done|]. rewrite Qmult_0_l.
    rewrite <- (Zle_Qle 0). lia.
  - apply Qle_shift_div_r; [done|]. rewrite Qmult_1_l.
    rewrite <- Zle_Qle. lia.
Qed.


(** C3: for a non-empty test partition the accuracy is the number of test
    rows whose predicted label equals the true label divided by the number
    of test rows, and it lies in [0, 1]. *)
Theorem accuracy_is_fraction_correct (y_true : Series) (y_pred : list Z) :
  y_pred <> [] ->
  length (s_values y_true) = length y_pred ->
  exists q : Q,
    accuracy_score y_true y_pred = Ok (Fin q)
    /\ q = (inject_Z (Z.of_nat (n_correct (s_values y_true) y_pred))
            / inject_Z (Z.of_nat (length y_pred)))%Q
    /\ (0 <= q)%Q /\ (q <= 1)%Q.
Proof. apply accuracy_score_fraction. Qed.

Lemma accuracy_is_fraction_correct_witness :
  exists q : Q,
    accuracy_score {| s_index := [3; 1; 0];
                      s_values := [Some (VNum 1); Some (VNum 0); Some (VNum 1)] |}
                   [1; 1; 1]%Z = Ok (Fin q)
    /\ (q == 2 # 3)%Q /\ (0 <= q)%Q /\ (q <= 1)%Q.
Proof.
  destruct (accuracy_is_fraction_correct
              {| s_index := [3; 1; 0];
                 s_values := [Some (VNum 1); Some (VNum 0); Some (VNum 1)] |}
              [1; 1; 1]%Z) as (q & Hq & Heq & H0 & H1); [done | reflexivity |].
  exists q. split; [done|]. split; [|done].
  rewrite Heq. reflexivity.
Defined.

(** ** Training cell *)

Section TrainingProperties.

Variable gen : BitGenerator.
Variable solver : Solver.

Lemma lbfgs_iterations fuel X y w k :
  (lbfgs solver fuel X y w k).2 <= k + fuel.
Proof.
  revert w k. induction fuel as [|fuel IH]; intros w k; simpl; [lia|].
  destruct (lbfgs_converged solver X y w); simpl; [lia|].
  specialize (IH (lbfgs_step solver X y w) (S k)). lia.
Qed.

Lemma fit_Ok iters X y fitted :
  fit solver iters X y = Ok fitted ->
  check_array solver X = Ok tt
  /\ 2 <= length (unique (omap id (s_values y)))
  /\ fitted = lbfgs solver iters X y (init_params solver X) 0.
Proof.
  unfold fit. destruct (check_array solver X) as [[]|e]; cbn [bind]; [|done].
  destruct (forallb notna (s_values y)); [|done].
  case_decide; [|done]. case_decide; [done|].
  intros [= <-]. repeat split; [lia].
Qed.

Lemma fit_iterations iters X y fitted :
  fit solver iters X y = Ok fitted -> fitted.2 <= iters.
Proof.
  intros (_ & _ & ->)%fit_Ok. apply (lbfgs_iterations iters X y _ 0).
Qed.

Lemma length_predict w X pred :
  predict solver w X = Ok pred -> length pred = nrows X.
Proof.
  unfold predict. destruct (check_array solver X); cbn [bind]; [|done].
  intros [= <-]. by rewrite length_map, length_seq.
Qed.

(** The statements of the training cell, unfolded. *)
Lemma training_cell_Ok global df t :
  training_cell gen solver global df = Ok t ->
  exists X y fitted,
    drop_columns ["Churn"] df = Ok X
    /\ getitem "Churn" df = Ok y
    /\ train_test_split gen global X y test_size (Some random_state) = Ok (split t)
    /\ fit solver max_iter (X_train (split t)) (y_train (split t)) = Ok fitted
    /\ model t = fitted.1 /\ n_iter_ t = fitted.2
    /\ predict solver (model t) (X_test (split t)) = Ok (y_pred t)
    /\ accuracy_score (y_test (split t)) (y_pred t) = Ok (accuracy t).
Proof.
  unfold training_cell. intros H.
  destruct (drop_columns ["Churn"] df) as [X|e] eqn:HX; cbn [bind] in H; [|done].
  destruct (getitem "Churn" df) as [y|e] eqn:Hy; cbn [bind] in H; [|done].
  destruct (train_test_split gen global X y test_size (Some random_state))
    as [sp|e] eqn:Hsp; cbn [bind] in H; [|done].
  destruct (fit solver max_iter (X_train sp) (y_train sp))
    as [fitted|e] eqn:Hfit; cbn [bind] in H; [|done].
  destruct (predict solver fitted.1 (X_test sp))
    as [pred|e] eqn:Hpred; cbn [bind] in H; [|done].
  destruct (accuracy_score (y_test sp) pred)
    as [acc|e] eqn:Hacc; cbn [bind] in H; [|done].
  injection H as <-. simpl. by exists X, y, fitted.
Qed.

(** X12: whenever the training cell completes, the accuracy it reports
    is a finite number, never NaN: the test partition is not empty and holds
    one label per prediction, so [accuracy_score] neither raises nor
    averages over nothing; the number is the fraction of test rows
    predicted right and lies in [0, 1]. *)
Lemma training_accuracy global df t :
  training_cell gen solver global df = Ok t ->
  exists q : Q,
    accuracy t = Fin q
    /\ q = (inject_Z (Z.of_nat (n_correct (s_values (y_test (split t))) (y_pred t)))
            / inject_Z (Z.of_nat (nrows (X_test (split t)))))%Q
    /\ (0 <= q)%Q /\ (q <= 1)%Q.
Proof.
  intros (X & y & fitted & HX & Hy & Hsp & _ & _ & _ & Hpred & Hacc)%training_cell_Ok.
  apply train_test_split_Ok in Hsp as (n_train & n_test & Hlen & Hv & Hsp).
  apply validate_shuffle_split_Ok in Hv as (Htest & _ & Hpos & Hsum).
  cbv zeta in Hsp.
  set (perm := permutation gen _ (nrows X)) in *.
  assert (Hlp : length perm = nrows X).
  { unfold perm. by rewrite (Permutation_length (permutation_perm gen _ _)), length_seq. }
  assert (Hnt : nrows (X_test (split t)) = n_test).
  { rewrite Hsp. simpl. rewrite nrows_iloc, length_take. lia. }
  assert (Hn : 0 < n_test).
  { pose proof (Nat.div_mod_eq (3 * nrows X + 9) 10).
    pose proof (Nat.mod_upper_bound (3 * nrows X + 9) 10). lia. }
  assert (Hlp' : length (y_pred t) = n_test).
  { by rewrite (length_predict _ _ _ Hpred). }
  destruct (accuracy_score_fraction (y_test (split t)) (y_pred t))
    as (q & Hq & Heq & H0 & H1).
  - destruct (y_pred t); [simpl in Hlp'; lia | done].
  - rewrite Hlp', Hsp. simpl. rewrite length_take_pos, length_take. lia.
  - exists q. rewrite Hq in Hacc. injection Hacc as <-.
    split; [done|]. split; [|done]. by rewrite Hnt, <- Hlp'.
Qed.

(** C8: the predictor matrix X and the label vector y taken from the
    preprocessed frame have the same number of rows, every column of X
    holds that many cells, and the split keeps the counts equal in each
    partition. *)
Theorem predictors_labels_same_rows global df out :
  preprocess df = Ok out ->
  exists X y,
    drop_columns ["Churn"] out = Ok X
    /\ getitem "Churn" out = Ok y
    /\ ("Churn" ∉ columns X)
    /\ well_shaped X
    /\ nrows X = length (s_values y)
    /\ length (s_index y) = length (s_values y)
    /\ forall sp,
         train_test_split gen global X y test_size (Some random_state) = Ok sp ->
         nrows (X_train sp) = length (s_values (y_train sp))
         /\ nrows (X_test sp) = length (s_values (y_test sp))
         /\ well_shaped (X_train sp) /\ well_shaped (X_test sp).
Proof.
  intros Hp. destruct (feature_matrix_Ok _ _ Hp) as (X & HX & HiX & HdX).
  destruct (preprocess_Ok _ _ Hp) as (status & _ & Hs & _ & _).
  pose proof (preprocess_churn _ _ _ Hp Hs) as Hc.
  pose proof (preprocess_well_shaped _ _ Hp) as Hw.
  exists X, {| s_index := index out; s_values := map churn_lambda (s_values status) |}.
  split; [done|]. split; [unfold getitem; by rewrite Hc|]. simpl.
  assert (Hlen : nrows X = length (map churn_lambda (s_values status))).
  { rewrite (well_shaped_lookup _ _ _ Hw Hc). unfold nrows. by rewrite HiX. }
  split.
  { unfold columns. rewrite HdX. intros (p & Hp1 & Hp2)%list_elem_of_fmap.
    apply list_elem_of_filter in Hp2 as [Hp2 _]. apply Hp2. rewrite <- Hp1.
    apply list_elem_of_here. }
  split; [by apply (well_shaped_filter ["Churn"] out X)|].
  split; [done|]. split; [by rewrite <- Hlen, <- HiX|].
  intros sp (n_train & n_test & _ & _ & ->)%train_test_split_Ok. simpl.
  rewrite !nrows_iloc, !length_take_pos.
  repeat split; try done; apply well_shaped_iloc.
Qed.

End TrainingProperties.

(** ** The cells on the demonstration table *)

Lemma train_test_partition_witness :
  exists X y sp,
    drop_columns ["Churn"] demo_features = Ok X
    /\ getitem "Churn" demo_features = Ok y
    /\ train_test_split demo_gen 0%Z X y test_size (Some random_state) = Ok sp
    /\ index (X_train sp) ++ index (X_test sp) ≡ₚ [0; 1; 3]
    /\ forall l, l ∈ index (X_train sp) -> l ∉ index (X_test sp).
Proof.
  destruct (drop_columns ["Churn"] demo_features) as [X|e] eqn:HX;
    [|by vm_compute in HX].
  destruct (getitem "Churn" demo_features) as [y|e] eqn:Hy; [|by vm_compute in Hy].
  assert (Hi : index X = [0; 1; 3]).
  { vm_compute in HX. by injection HX as <-. }
  pose proof (train_test_partition demo_gen 0%Z X y) as Hpart.
  destruct (train_test_split demo_gen 0%Z X y test_size (Some random_state))
    as [sp|e] eqn:Hsp.
  - destruct Hpart as (train & test & _ & _ & _ & _ & _ & _ & _ & Hperm & Hdisj).
    exists X, y, sp. repeat split; try done.
    + by rewrite Hperm, Hi.
    + apply Hdisj. rewrite Hi. compute_done.
  - exfalso. vm_compute in HX, Hy. injection HX as <-. injection Hy as <-.
    vm_compute in Hpart. destruct Hpart as [H|H]; [done | lia].
Defined.

Lemma predictors_labels_same_rows_witness :
  exists X y,
    drop_columns ["Churn"] demo_features = Ok X
    /\ getitem "Churn" demo_features = Ok y
    /\ nrows X = 3 /\ length (s_values y) = 3.
Proof.
  assert (Hp : preprocess demo_df = Ok demo_features) by (by vm_compute).
  destruct (predictors_labels_same_rows demo_gen 0%Z demo_df demo_features Hp)
    as (X & y & HX & Hy & _ & _ & Hrows & _).
  exists X, y. split; [done|]. split; [done|].
  rewrite <- Hrows. vm_compute in HX. injection HX as <-. by split.
Defined.

(** Without a seed the split follows the process-wide generator: two
    states of it give two different test partitions. *)
Example unseeded_split_follows_global :
  let X := iloc [0; 1; 2] demo_features in
  let y := {| s_index := [0; 1; 3]; s_values := [Some (VNum 1); Some (VNum 0); Some (VNum 1)] |} in
  (X_test <$> (match train_test_split demo_gen 3%Z X y test_size None with
               | Ok sp => Some sp | Raise _ => None end))
  <> (X_test <$> (match train_test_split demo_gen 4%Z X y test_size None with
                  | Ok sp => Some sp | Raise _ => None end)).
Proof. vm_compute. intros H. discriminate H. Qed.

(** * Further properties of the cells *)

(** ** Required columns and errors of the preprocessing cell *)

Lemma columns_iloc pos df : columns (iloc pos df) = columns df.
Proof.
  unfold columns. simpl. generalize (data df). intros d.
  induction d as [|[c v] d IH]; simpl; [done | by f_equal].
Qed.

Lemma columns_dropna df : columns (dropna df) = columns df.
Proof. apply columns_iloc. Qed.

Lemma lookup_col_is_Some c d : is_Some (lookup_col c d) <-> c ∈ d.*1.
Proof.
  destruct (lookup_col c d) as [vals|] eqn:Hl.
  - split; [intros _; by apply (lookup_col_columns c d vals) | by eexists].
  - apply lookup_col_None in Hl. split; [by intros [? ?] | done].
Qed.

Lemma select_columns_total cols df :
  Forall (fun c => c ∈ columns df) cols -> exists enc, select_columns cols df = Ok enc.
Proof.
  induction 1 as [|c cols Hc _ [enc IH]]; simpl; [by eexists|].
  apply lookup_col_is_Some in Hc as [vals ->]. rewrite IH. simpl. by eexists.
Qed.

Lemma select_columns_Raise cols df e :
  select_columns cols df = Raise e ->
  exists c, e = KeyError c /\ c ∈ cols /\ c ∉ columns df.
Proof.
  induction cols as [|c cols IH]; simpl; [done|].
  destruct (lookup_col c (data df)) as [vals|] eqn:Hl.
  - destruct (select_columns cols df) as [rest|e']; simpl; [done|].
    intros [= <-]. destruct (IH eq_refl) as (c' & -> & Hin & Hout).
    exists c'. split; [done|]. split; [by right | done].
  - intros [= <-]. exists c. split; [done|]. split; [by left|].
    by apply lookup_col_None.
Qed.

Lemma first_missing_Some cols df c :
  first_missing cols df = Some c -> c ∈ cols /\ c ∉ columns df.
Proof.
  induction cols as [|c' cols IH]; simpl; [done|]. case_decide as Hin.
  - intros [? ?]%IH. split; [by right | done].
  - intros [= ->]. split; [by left | done].
Qed.

Lemma columns_setitem c vals df x :
  x ∈ columns (setitem c vals df) <-> x = c \/ x ∈ columns df.
Proof.
  unfold columns. rewrite <- !lookup_col_is_Some.
  destruct (decide (x = c)) as [->|Hne].
  - rewrite lookup_col_setitem. split; [by left | by eexists].
  - rewrite lookup_col_setitem_ne by done. split; [by right | by intros [?|?]].
Qed.

(** No indicator column bears the name of a column the cell reads or
    drops: no listed name followed by an underscore starts another listed
    name, 'Customer_ID', 'Customer_Status' or 'Churn'. *)
Lemma dummy_name_fresh c v :
  c ∈ categorical_columns ->
  dummy_name c v ∉ "Churn" :: "Customer_ID" :: "Customer_Status" :: categorical_columns.
Proof.
  unfold categorical_columns, dummy_name. intros Hc.
  repeat (apply elem_of_cons in Hc as [->|Hc]); [..|by apply elem_of_nil in Hc];
    simpl; intros Hin;
    repeat (apply elem_of_cons in Hin as [Hin|Hin]; [discriminate Hin|]);
    by apply elem_of_nil in Hin.
Qed.

Lemma columns_get_dummies df out x :
  get_dummies categorical_columns true df = Ok out ->
  x ∈ columns out
  <-> (x ∈ columns df /\ x ∉ categorical_columns)
      \/ exists k, k ∈ dummy_keys categorical_columns true df /\ x = dummy_name k.1 k.2.
Proof.
  intros Hg. unfold columns. rewrite (get_dummies_data _ _ Hg), fmap_app, elem_of_app.
  f_equiv.
  - rewrite !list_elem_of_fmap. split.
    + intros (p & -> & [Hp Hin]%list_elem_of_filter). split; [by exists p | done].
    + intros [(p & -> & Hin) Hx]. exists p. split; [done|].
      by apply list_elem_of_filter.
  - rewrite list_elem_of_fmap. split.
    + intros (p & -> & (k & -> & Hk)%list_elem_of_fmap). by exists k.
    + intros (k & Hk & ->). exists (dummy_column df k). split; [done|].
      apply list_elem_of_fmap. by exists k.
Qed.

Lemma columns_drop_columns cols df out x :
  drop_columns cols df = Ok out -> x ∈ columns out <-> x ∈ columns df /\ x ∉ cols.
Proof.
  intros [_ Hd]%drop_columns_Ok. unfold columns. rewrite Hd, !list_elem_of_fmap. split.
  - intros (p & -> & [Hp Hin]%list_elem_of_filter). split; [by exists p | done].
  - intros [(p & -> & Hin) Hx]. exists p. split; [done|]. by apply list_elem_of_filter.
Qed.

(** The columns of the preprocessed frame: the untouched input columns
    (and the label), then one indicator per kept category. *)
Lemma preprocess_columns df out status x :
  preprocess df = Ok out ->
  getitem "Customer_Status" (dropna df) = Ok status ->
  x ∈ columns out
  <-> ((x = "Churn" \/ x ∈ columns df)
       /\ x ∉ "Customer_ID" :: "Customer_Status" :: categorical_columns)
      \/ exists k,
           k ∈ dummy_keys categorical_columns true
                 (setitem "Churn" (map churn_lambda (s_values status)) (dropna df))
           /\ x = dummy_name k.1 k.2.
Proof.
  intros Hp Hs. destruct (preprocess_Ok _ _ Hp) as (status' & df3 & Hs' & Hg & Hd).
  rewrite Hs in Hs'. injection Hs' as <-.
  rewrite (columns_drop_columns _ _ _ x Hd), (columns_get_dummies _ _ x Hg).
  rewrite columns_setitem, columns_dropna, !not_elem_of_cons. split.
  - intros [[[Hx Hcat] | (k & Hk & ->)] Hdrop]; [left; tauto|]. right. by exists k.
  - intros [[Hx (? & ? & ?)] | (k & Hk & ->)].
    + split; [left; tauto|]. repeat split; try done. apply not_elem_of_nil.
    + assert (Hc : k.1 ∈ categorical_columns).
      { destruct k as [c v]. by apply dummy_keys_elem in Hk as [? _]. }
      pose proof (dummy_name_fresh _ k.2 Hc) as Hf. rewrite !not_elem_of_cons in Hf.
      split; [right; by exists k|]. repeat split; try tauto. apply not_elem_of_nil.
Qed.

(** X1: the preprocessing cell completes exactly on the frames that have
    the status column, the identifier column and every listed categorical
    column. *)
Theorem preprocess_succeeds_iff_columns df :
  (exists out, preprocess df = Ok out)
  <-> "Customer_Status" ∈ columns df
      /\ "Customer_ID" ∈ columns df
      /\ Forall (fun c => c ∈ columns df) categorical_columns.
Proof.
  split.
  - intros [out Hp]. destruct (preprocess_Ok _ _ Hp) as (status & df3 & Hs & Hg & Hd).
    assert (Hst : "Customer_Status" ∈ columns df).
    { rewrite <- columns_dropna. apply lookup_col_is_Some. unfold getitem in Hs.
      destruct (lookup_col _ _); [by eexists | done]. }
    split; [done|].
    assert (Hcat : Forall (fun c => c ∈ columns df) categorical_columns).
    { apply get_dummies_Ok in Hg as (enc & [Hall _]%select_columns_Ok & _).
      rewrite Forall_forall in *. intros c Hc. specialize (Hall c Hc).
      apply lookup_col_is_Some, columns_setitem in Hall as [->|Hin].
      - revert Hc. compute_done.
      - by rewrite columns_dropna in Hin. }
    split; [|done].
    unfold drop_columns in Hd.
    destruct (first_missing _ df3) eqn:Hm; [done|].
    apply first_missing_None, Forall_cons in Hm as [Hid _].
    apply (columns_get_dummies _ _ _ Hg) in Hid as [[Hid _] | (k & Hk & Hname)].
    + apply columns_setitem in Hid as [?|Hid]; [done|]. by rewrite columns_dropna in Hid.
    + assert (Hc : k.1 ∈ categorical_columns).
      { destruct k as [c v]. by apply dummy_keys_elem in Hk as [? _]. }
      pose proof (dummy_name_fresh _ k.2 Hc) as Hf. rewrite <- Hname in Hf.
      rewrite !not_elem_of_cons in Hf. tauto.
  - intros (Hst & Hid & Hcat).
    unfold preprocess, preprocessing_cell, run, run_stmt. cbn [bind].
    assert (Hs : exists status, getitem "Customer_Status" (dropna df) = Ok status).
    { unfold getitem. rewrite <- columns_dropna in Hst.
      apply lookup_col_is_Some in Hst as [vals ->]. by eexists. }
    destruct Hs as [status ->]. cbn [bind].
    set (df2 := setitem "Churn" (map churn_lambda (s_values status)) (dropna df)).
    assert (Hg : exists df3, get_dummies categorical_columns true df2 = Ok df3).
    { destruct (select_columns_total categorical_columns df2) as [enc Henc].
      - eapply Forall_impl; [exact Hcat|]. intros c Hc. simpl.
        apply columns_setitem. right. by rewrite columns_dropna.
      - unfold get_dummies. rewrite Henc. simpl. by eexists. }
    destruct Hg as [df3 Hg]. rewrite Hg. cbn [bind].
    assert (Hin : forall x, x ∈ columns df -> x ∉ categorical_columns -> x ∈ columns df3).
    { intros x Hx Hn. apply (columns_get_dummies _ _ _ Hg). left. split; [|done].
      apply columns_setitem. right. by rewrite columns_dropna. }
    unfold drop_columns.
    replace (first_missing ["Customer_ID"; "Customer_Status"] df3) with (@None string).
    + simpl. by eexists.
    + symmetry. apply first_missing_None.
      repeat constructor; apply Hin; try done; compute_done.
Qed.

(** X2: the only error of the preprocessing cell is a [KeyError], and it
    names a column the cell needs and the frame lacks. *)
Theorem preprocess_raises_only_KeyError df e :
  preprocess df = Raise e ->
  exists c, e = KeyError c
            /\ c ∈ "Customer_ID" :: "Customer_Status" :: categorical_columns
            /\ c ∉ columns df.
Proof.
  unfold preprocess, preprocessing_cell, run, run_stmt. cbn [bind]. intros H.
  destruct (getitem "Customer_Status" (dropna df)) as [status|e'] eqn:Hs;
    cbn [bind] in H.
  2:{ injection H as ->. unfold getitem in Hs.
      destruct (lookup_col _ _) eqn:Hl; [done|]. injection Hs as <-.
      exists "Customer_Status". split; [done|]. split; [compute_done|].
      rewrite <- columns_dropna. by apply lookup_col_None. }
  set (df2 := setitem "Churn" (map churn_lambda (s_values status)) (dropna df)) in *.
  destruct (get_dummies categorical_columns true df2) as [df3|e'] eqn:Hg;
    cbn [bind] in H.
  2:{ injection H as ->. unfold get_dummies in Hg.
      destruct (select_columns categorical_columns df2) as [enc|e'] eqn:Hsel; [done|].
      simpl in Hg. injection Hg as ->.
      apply select_columns_Raise in Hsel as (c & -> & Hc & Hout).
      exists c. split; [done|]. split; [by do 2 right|].
      intros Hin. apply Hout, columns_setitem. right. by rewrite columns_dropna. }
  destruct (drop_columns _ df3) as [df4|e'] eqn:Hd; cbn [bind] in H; [done|].
  injection H as ->. unfold drop_columns in Hd.
  destruct (first_missing _ df3) as [c|] eqn:Hm; [|done]. injection Hd as <-.
  apply first_missing_Some in Hm as [Hc Hout].
  exists c. split; [done|]. split.
  - apply elem_of_cons in Hc as [->|Hc]; [by left|].
    apply elem_of_cons in Hc as [->|Hc]; [by right; left | by apply elem_of_nil in Hc].
  - intros Hin. apply Hout, (columns_get_dummies _ _ _ Hg). left. split.
    + apply columns_setitem. right. by rewrite columns_dropna.
    + revert Hc. clear. intros Hc.
      apply elem_of_cons in Hc as [->|Hc]; [compute_done|].
      apply elem_of_cons in Hc as [->|Hc]; [compute_done | by apply elem_of_nil in Hc].
Qed.

(** X3: the preprocessed frame never mentions a column the cell consumed:
    the identifier, the status column and the listed categorical columns are
    all gone from it. *)
Theorem preprocess_removes_source_columns df out c :
  preprocess df = Ok out ->
  c ∈ "Customer_ID" :: "Customer_Status" :: categorical_columns ->
  c ∉ columns out.
Proof.
  intros Hp Hc Hin. destruct (preprocess_Ok _ _ Hp) as (status & _ & Hs & _ & _).
  destruct (proj1 (preprocess_columns _ _ _ c Hp Hs) Hin)
    as [[_ Hn] | (k & Hk & Hname)]; [done|].
  rewrite Hname in Hc.
  assert (Hk1 : k.1 ∈ categorical_columns).
  { destruct k as [c' v]. by apply dummy_keys_elem in Hk as [? _]. }
  apply (dummy_name_fresh _ k.2 Hk1). by right.
Qed.

(** ** Cells of the preprocessed frame *)

Lemma elem_of_take_pos {A} (d : A) pos l x :
  x ∈ take_pos d pos l <-> exists i, i ∈ pos /\ x = nth i l d.
Proof.
  unfold take_pos. change (map ?f ?l) with (f <$> l). rewrite list_elem_of_fmap.
  split; intros (i & ? & ?); by exists i.
Qed.

Lemma dropna_no_missing df :
  Forall (fun p => Forall is_Some p.2) (data (dropna df)).
Proof.
  apply Forall_forall. intros p (q & -> & Hq)%list_elem_of_fmap. simpl.
  apply Forall_forall. intros x (i & [Hi _]%list_elem_of_filter & ->)%elem_of_take_pos.
  unfold row_complete in Hi. rewrite forallb_forall in Hi.
  specialize (Hi q (proj1 (list_elem_of_In _ _) Hq)).
  by destruct (nth i q.2 None).
Qed.

Lemma setitem_data c vals df p :
  p ∈ data (setitem c vals df) -> p = (c, vals) \/ p ∈ data df.
Proof.
  unfold setitem. simpl. case_decide.
  - intros (q & -> & Hq)%list_elem_of_fmap. case_decide; [by left | by right].
  - intros [?|Hp%list_elem_of_singleton]%elem_of_app; [by right | by left].
Qed.

(** X4: the preprocessed frame has no missing cell, and every column of
    it holds exactly one cell per row. *)
Theorem preprocess_no_missing_cell df out :
  preprocess df = Ok out ->
  Forall (fun p => length p.2 = nrows out /\ Forall is_Some p.2) (data out).
Proof.
  intros Hp. pose proof (preprocess_well_shaped _ _ Hp) as Hw.
  destruct (preprocess_Ok _ _ Hp) as (status & df3 & Hs & Hg & Hd).
  apply drop_columns_Ok in Hd as [_ Hdata]. pose proof (get_dummies_data _ _ Hg) as Hd3.
  unfold well_shaped in Hw. rewrite Forall_forall in *.
  intros p Hin. split; [by apply Hw|].
  rewrite Hdata in Hin. apply list_elem_of_filter in Hin as [_ Hin].
  rewrite Hd3 in Hin. apply elem_of_app in Hin as [Hin|Hin].
  - apply list_elem_of_filter in Hin as [_ Hin].
    apply setitem_data in Hin as [->|Hin].
    + simpl. apply Forall_forall. by intros x (y & -> & _)%list_elem_of_fmap.
    + pose proof (dropna_no_missing df) as Hna. rewrite Forall_forall in Hna.
      by apply Hna.
  - apply list_elem_of_fmap in Hin as (k & -> & _). simpl.
    apply Forall_forall. by intros x (y & -> & _)%list_elem_of_fmap.
Qed.

Lemma lookup_col_iloc c pos df :
  lookup_col c (data (iloc pos df)) = take_pos None pos <$> lookup_col c (data df).
Proof.
  simpl. generalize (data df). intros d.
  induction d as [|[name v] d IH]; simpl; [done|]. by case_decide.
Qed.

(** X5: a column that is neither encoded nor dropped, and is not the label,
    reaches the preprocessed frame with the cells of the surviving rows, in
    their order, and nothing else. *)
Theorem preprocess_passes_other_columns df out c col :
  preprocess df = Ok out ->
  lookup_col c (data df) = Some col ->
  c ∉ "Churn" :: "Customer_ID" :: "Customer_Status" :: categorical_columns ->
  lookup_col c (data out)
  = Some (take_pos None (filter (fun i => row_complete df i = true)
                                (seq 0 (nrows df))) col).
Proof.
  intros Hp Hcol Hc. destruct (preprocess_Ok _ _ Hp) as (status & df3 & _ & Hg & Hd).
  apply get_dummies_Ok in Hg as (enc & _ & _ & Hdata).
  apply drop_columns_Ok in Hd as [_ Hdata'].
  rewrite !not_elem_of_cons in Hc. destruct Hc as (Hchurn & Hid & Hst & Hcat).
  rewrite Hdata', lookup_col_filter.
  2:{ rewrite !not_elem_of_cons. repeat split; try done. apply not_elem_of_nil. }
  rewrite Hdata, lookup_col_app, lookup_col_filter by done.
  rewrite lookup_col_setitem_ne by done.
  unfold dropna. by rewrite lookup_col_iloc, Hcol.
Qed.

(** ** Order of the categories and the shape of the indicators *)

Lemma string_compare_trans s t u :
  String.compare s t <> Gt -> String.compare t u <> Gt -> String.compare s u <> Gt.
Proof.
  revert t u. induction s as [|a s IH]; intros [|b t] [|c u]; simpl; try done.
  unfold Ascii.compare.
  destruct (N.compare_spec (Ascii.N_of_ascii a) (Ascii.N_of_ascii b)) as [Hab|Hab|Hab];
    destruct (N.compare_spec (Ascii.N_of_ascii b) (Ascii.N_of_ascii c)) as [Hbc|Hbc|Hbc];
    destruct (N.compare_spec (Ascii.N_of_ascii a) (Ascii.N_of_ascii c)) as [Hac|Hac|Hac];
    try done; try lia. apply IH.
Qed.

Lemma value_leb_trans a b c :
  value_leb a b = true -> value_leb b c = true -> value_leb a c = true.
Proof.
  destruct a as [s|x], b as [t|y], c as [u|z]; simpl; try done.
  - unfold String.leb. intros Hst Htu.
    pose proof (string_compare_trans s t u) as Htr.
    destruct (String.compare s t); try done;
      destruct (String.compare t u); try done;
      destruct (String.compare s u); try done; exfalso; by apply Htr.
  - rewrite !Z.leb_le. lia.
Qed.

Lemma value_leb_total a b : value_leb a b = true \/ value_leb b a = true.
Proof.
  destruct a as [s|x], b as [t|y]; simpl; try tauto.
  - apply String.leb_total.
  - rewrite !Z.leb_le. lia.
Qed.

Lemma insert_sorted_sorted v l :
  StronglySorted (fun a b => value_leb a b = true) l ->
  StronglySorted (fun a b => value_leb a b = true) (insert_sorted v l).
Proof.
  induction 1 as [|x l Hs IH Hx]; simpl; [by repeat constructor|].
  destruct (value_leb v x) eqn:Hvx.
  - constructor; [by constructor|]. constructor; [done|].
    eapply Forall_impl; [exact Hx|]. intros y Hy. simpl in *.
    by apply (value_leb_trans v x y).
  - constructor; [done|]. rewrite insert_sorted_perm. constructor; [|done].
    destruct (value_leb_total v x) as [H|H]; [congruence | done].
Qed.

Lemma categories_sorted vals :
  StronglySorted (fun a b => value_leb a b = true) (categories vals).
Proof.
  unfold categories, sort_values.
  induction (unique (omap id vals)) as [|x l IH]; simpl; [constructor|].
  by apply insert_sorted_sorted.
Qed.

(** X6: the categories of a column come in ascending order (numbers before
    strings, strings by code point), so the category that [drop_first]
    drops is the least value the column holds. *)
Theorem dropped_category_is_least vals first v :
  head (categories vals) = Some first ->
  Some v ∈ vals ->
  value_leb first v = true /\ (v <> first -> v ∈ kept_levels true vals).
Proof.
  intros Hhead Hv. apply categories_elem in Hv.
  pose proof (categories_sorted vals) as Hs. unfold kept_levels.
  destruct (categories vals) as [|x l]; [done|]. injection Hhead as ->. simpl.
  apply StronglySorted_inv in Hs as [_ Hall]. rewrite Forall_forall in Hall.
  apply elem_of_cons in Hv as [->|Hv].
  - split; [|done]. by destruct (value_leb_total first first).
  - split; [by apply Hall | done].
Qed.

Lemma length_filter_eq_NoDup (l : list value) v :
  NoDup l -> length (filter (fun x => x = v) l) = if decide (v ∈ l) then 1 else 0.
Proof.
  induction 1 as [|x l Hx _ IH]; [done|]. rewrite filter_cons.
  destruct (decide (x = v)) as [->|Hne]; simpl.
  - rewrite decide_True by left. rewrite IH, decide_False; done.
  - rewrite IH. destruct (decide (v ∈ l)) as [Hin|Hin].
    + rewrite decide_True; [done | by right].
    + rewrite decide_False; [done|]. rewrite not_elem_of_cons. split; congruence.
Qed.

Lemma indicator_one v lv (vals : list cell) i :
  vals !! i = Some (Some v) ->
  map (indicator lv) vals !! i = Some (Some (VNum 1)) <-> lv = v.
Proof.
  intros Hi. rewrite lookup_map, Hi. simpl. unfold indicator.
  destruct (decide (Some v = Some lv)) as [[= ->]|Hne]; [done|].
  split; [done | intros ->; done].
Qed.

(** X7: one-hot rows.  Every indicator column of an encoded column [c] is
    the indicator of one kept category, under the name [c_category], and
    holds in a row a 1 if that is the row's category and a 0 otherwise; the
    indicator of the row's own category is among them unless it is the
    dropped first one.  So a row holds a single 1, in the column named
    after its category, and only zeros when it has the dropped category. *)
Theorem one_hot_row c (vals : list cell) i v :
  vals !! i = Some (Some v) ->
  (forall col, col ∈ get_dummies_1d true c vals ->
     exists lv, lv ∈ kept_levels true vals
       /\ col = (dummy_name c lv, map (indicator lv) vals)
       /\ col.2 !! i = Some (Some (VNum (if decide (lv = v) then 1 else 0))))
  /\ (head (categories vals) <> Some v ->
      (dummy_name c v, map (indicator v) vals) ∈ get_dummies_1d true c vals)
  /\ length (filter (fun col => col.2 !! i = Some (Some (VNum 1)))
                    (get_dummies_1d true c vals))
     = (if decide (head (categories vals) = Some v) then 0 else 1).
Proof.
  intros Hi.
  assert (Hv : v ∈ categories vals).
  { apply categories_elem, list_elem_of_lookup. by exists i. }
  split; [|split].
  - intros col (lv & -> & Hlv)%list_elem_of_fmap. exists lv.
    split; [done|]. split; [done|]. simpl. rewrite lookup_map, Hi. simpl.
    unfold indicator. destruct (decide (lv = v)) as [->|Hne].
    + by rewrite decide_True.
    + rewrite decide_False; [done | congruence].
  - intros Hhead. apply list_elem_of_fmap. exists v. split; [done|].
    unfold kept_levels. destruct (categories vals) as [|first rest]; [done|].
    simpl in *. apply elem_of_cons in Hv as [->|Hv]; [done | done].
  - pose proof (categories_NoDup vals) as Hnd.
    unfold get_dummies_1d, kept_levels.
    destruct (categories vals) as [|first rest]; [by apply elem_of_nil in Hv|].
    simpl. apply NoDup_cons in Hnd as [Hfirst Hrest].
    transitivity (length (filter (fun x => x = v) rest)).
    + clear Hv Hfirst Hrest. induction rest as [|lv rest IH]; [done|].
      simpl. rewrite !filter_cons. simpl.
      destruct (decide (lv = v)) as [->|Hne].
      * rewrite decide_True by (by apply (indicator_one v v vals i)). simpl. by rewrite IH.
      * rewrite decide_False; [done|]. by rewrite (indicator_one v lv vals i).
    + rewrite (length_filter_eq_NoDup _ _ Hrest).
      apply elem_of_cons in Hv as [->|Hv].
      * rewrite decide_False by done. by rewrite decide_True.
      * rewrite decide_True by done. rewrite decide_False; [done|].
        intros [= ->]. done.
Qed.

(** X8: a listed column that holds one single value over the surviving
    rows (or none at all) gives no indicator column. *)
Theorem constant_column_not_encoded c (vals : list cell) v :
  (forall x, x ∈ vals -> x = Some v) ->
  get_dummies_1d true c vals = [].
Proof.
  intros Hconst. unfold get_dummies_1d, kept_levels.
  pose proof (categories_NoDup vals) as Hnd.
  assert (Hall : forall a, a ∈ categories vals -> a = v).
  { intros a Ha%categories_elem. specialize (Hconst _ Ha). congruence. }
  destruct (categories vals) as [|a [|b l]]; [done | done |]. exfalso.
  apply NoDup_cons in Hnd as [Hnd _]. apply Hnd.
  rewrite (Hall a), (Hall b); [left | by right; left | by left].
Qed.

(** ** Rows through the split *)

Lemma row_at_iloc pos X k p :
  pos !! k = Some p -> row_at (iloc pos X) k = row_at X p.
Proof.
  intros Hk. unfold row_at. simpl. rewrite map_map. apply map_ext. intros col. simpl.
  unfold take_pos. by rewrite (nth_map_lookup _ _ _ p _ Hk).
Qed.

Lemma lookup_take_pos {A} (d : A) pos l k p :
  pos !! k = Some p -> p < length l -> take_pos d pos l !! k = l !! p.
Proof.
  intros Hk Hp. unfold take_pos. rewrite lookup_map, Hk. simpl.
  rewrite nth_lookup. by destruct (lookup_lt_is_Some_2 l p Hp) as [x ->].
Qed.

Section SplitRows.

Variable gen : BitGenerator.

(** X9: the split keeps each sample together with its label: every
    position [k] of a partition holds, in the predictors, in the labels and
    in the row index, the row of one and the same position [p] of the
    dataset. *)
Theorem split_keeps_rows_paired global X y sp :
  train_test_split gen global X y test_size (Some random_state) = Ok sp ->
  (forall k, k < nrows (X_train sp) ->
     exists p, p < nrows X
       /\ row_at (X_train sp) k = row_at X p
       /\ is_Some (s_values y !! p)
       /\ s_values (y_train sp) !! k = s_values y !! p
       /\ index (X_train sp) !! k = index X !! p)
  /\ (forall k, k < nrows (X_test sp) ->
        exists p, p < nrows X
          /\ row_at (X_test sp) k = row_at X p
          /\ is_Some (s_values y !! p)
          /\ s_values (y_test sp) !! k = s_values y !! p
          /\ index (X_test sp) !! k = index X !! p).
Proof.
  intros (n_train & n_test & Hlen & _ & Hsp)%train_test_split_Ok. cbv zeta in Hsp.
  set (perm := permutation gen _ (nrows X)) in *.
  assert (Hperm : perm ≡ₚ seq 0 (nrows X)) by apply permutation_perm.
  assert (Hin : forall pos, pos ⊆ perm ->
            forall k, k < nrows (iloc pos X) ->
              exists p, p < nrows X
                /\ row_at (iloc pos X) k = row_at X p
                /\ is_Some (s_values y !! p)
                /\ take_pos None pos (s_values y) !! k = s_values y !! p
                /\ take_pos 0 pos (index X) !! k = index X !! p).
  { intros pos Hsub k Hk. rewrite nrows_iloc in Hk.
    destruct (lookup_lt_is_Some_2 pos k Hk) as [p Hp]. exists p.
    assert (Hlt : p < nrows X).
    { assert (p ∈ perm) as Hp' by (apply Hsub, list_elem_of_lookup; by exists k).
      rewrite Hperm in Hp'. apply elem_of_seq in Hp'. lia. }
    split; [done|]. split; [by apply row_at_iloc|].
    split; [apply lookup_lt_is_Some_2; by rewrite Hlen|].
    split; apply lookup_take_pos; try done. by rewrite Hlen. }
  rewrite Hsp. simpl. split; apply Hin.
  - etrans; [apply subseteq_take | apply subseteq_drop].
  - apply subseteq_take.
Qed.

End SplitRows.

(** ** Failures of the training cell *)

Lemma validate_shuffle_split_empty_train n :
  n < 2 ->
  validate_shuffle_split n test_size
  = Raise (ValueError "the resulting train set will be empty").
Proof.
  intros Hn. unfold validate_shuffle_split. rewrite n_test_ceiling.
  by assert (n = 0 \/ n = 1) as [-> | ->] by lia.
Qed.

Lemma unique_constant (l : list value) a :
  (forall x, x ∈ l -> x = a) -> length (unique l) < 2.
Proof.
  intros Hall. pose proof (unique_NoDup l) as Hnd.
  assert (Hu : forall x, x ∈ unique l -> x = a).
  { intros x Hx. apply Hall. by apply unique_elem. }
  destruct (unique l) as [|x [|z l']]; simpl; [lia | lia |]. exfalso.
  apply NoDup_cons in Hnd as [Hnd _]. apply Hnd.
  rewrite (Hu x), (Hu z); [left | by right; left | by left].
Qed.

Section TrainingFailures.

Variable gen : BitGenerator.
Variable solver : Solver.

Lemma check_array_Raise X e :
  check_array solver X = Raise e -> exists msg, e = ValueError msg.
Proof.
  unfold check_array. repeat case_match; try done; intros [= <-]; by eexists.
Qed.

Lemma fit_single_class iters X y a :
  (forall x, x ∈ omap id (s_values y) -> x = a) ->
  exists msg, fit solver iters X y = Raise (ValueError msg).
Proof.
  intros Hconst. unfold fit.
  destruct (check_array solver X) as [[]|e] eqn:Hc; cbn [bind].
  2:{ apply check_array_Raise in Hc as [msg ->]. by eexists. }
  destruct (forallb notna (s_values y)); [|by eexists].
  case_decide; [|by eexists].
  rewrite decide_True; [by eexists|]. by apply (unique_constant _ a).
Qed.

Lemma preprocess_labels df out status :
  preprocess df = Ok out ->
  getitem "Customer_Status" (dropna df) = Ok status ->
  exists X,
    drop_columns ["Churn"] out = Ok X
    /\ nrows X = nrows out
    /\ getitem "Churn" out
       = Ok {| s_index := index out; s_values := map churn_lambda (s_values status) |}
    /\ length (map churn_lambda (s_values status)) = nrows X.
Proof.
  intros Hp Hs. destruct (feature_matrix_Ok _ _ Hp) as (X & HX & HiX & _).
  pose proof (preprocess_churn _ _ _ Hp Hs) as Hc.
  exists X. split; [done|]. split; [unfold nrows; by rewrite HiX|].
  split; [unfold getitem; by rewrite Hc|].
  rewrite (well_shaped_lookup _ _ _ (preprocess_well_shaped _ _ Hp) Hc).
  unfold nrows. by rewrite HiX.
Qed.

(** X10: when fewer than two rows survive preprocessing (none at all
    included) the training cell stops in the split with a [ValueError]: the
    train set would be empty. *)
Theorem training_needs_two_rows global df out :
  preprocess df = Ok out ->
  nrows out < 2 ->
  training_cell gen solver global out
  = Raise (ValueError "the resulting train set will be empty").
Proof.
  intros Hp Hn. destruct (preprocess_Ok _ _ Hp) as (status & _ & Hs & _ & _).
  destruct (preprocess_labels _ _ _ Hp Hs) as (X & HX & HnX & Hy & Hlen).
  unfold training_cell. rewrite HX, Hy. cbn [bind].
  unfold train_test_split. cbn [s_values]. rewrite decide_True by done.
  rewrite validate_shuffle_split_empty_train by lia. done.
Qed.

(** X11: when all surviving rows carry the same label (every customer
    churned, or none did) the training cell does not produce a model: it
    stops with a [ValueError]. *)
Theorem training_fails_on_single_class global df out status :
  preprocess df = Ok out ->
  getitem "Customer_Status" (dropna df) = Ok status ->
  Forall (fun x => x = Some (VStr "Churned")) (s_values status)
  \/ Forall (fun x => x <> Some (VStr "Churned")) (s_values status) ->
  exists msg, training_cell gen solver global out = Raise (ValueError msg).
Proof.
  intros Hp Hs Hclass.
  destruct (preprocess_labels _ _ _ Hp Hs) as (X & HX & HnX & Hy & Hlen).
  assert (Hconst : exists l, forall x,
            x ∈ map churn_lambda (s_values status) -> x = Some (VNum l)).
  { destruct Hclass as [Hall|Hall]; [exists 1%Z | exists 0%Z];
      intros x (s & -> & Hin)%list_elem_of_fmap; rewrite Forall_forall in Hall;
      specialize (Hall s Hin); unfold churn_lambda.
    - by rewrite decide_True.
    - by rewrite decide_False. }
  destruct Hconst as [l Hconst].
  unfold training_cell. rewrite HX, Hy. cbn [bind].
  destruct (train_test_split gen global X _ test_size (Some random_state))
    as [sp|e] eqn:Hsp; cbn [bind].
  2:{ unfold train_test_split in Hsp. case_decide; [|injection Hsp as <-; by eexists].
      unfold validate_shuffle_split in Hsp. case_decide; [|done].
      simpl in Hsp. injection Hsp as <-. by eexists. }
  apply train_test_split_Ok in Hsp as (n_train & n_test & _ & _ & ->).
  cbv zeta. cbn [X_train y_train].
  destruct (fit_single_class max_iter
              (iloc (take n_train (drop n_test
                 (permutation gen (check_random_state gen global (Some random_state))
                    (nrows X)))) X)
              (iloc_series (take n_train (drop n_test
                 (permutation gen (check_random_state gen global (Some random_state))
                    (nrows X))))
                 {| s_index := index out;
                    s_values := map churn_lambda (s_values status) |})
              (VNum l)) as [msg Hfit]; [|rewrite Hfit; by eexists].
  intros x Hx.
  apply list_elem_of_omap in Hx as (c & Hc & Hid). simpl in Hid. subst c.
  simpl in Hc. apply elem_of_take_pos in Hc as (p & _ & Hp').
  destruct (decide (p < length (map churn_lambda (s_values status)))) as [Hlt|Hge].
  - destruct (lookup_lt_is_Some_2 _ _ Hlt) as [c Hc].
    rewrite nth_lookup, Hc in Hp'. simpl in Hp'. subst c.
    assert (Some x ∈ map churn_lambda (s_values status)) as Hin
      by (apply list_elem_of_lookup; by exists p).
    specialize (Hconst _ Hin). congruence.
  - rewrite nth_overflow in Hp' by lia. done.
Qed.

End TrainingFailures.

(** ** Training cell: the accuracy it reports *)

Lemma training_accuracy_witness :
  exists q : Q,
    accuracy demo_trained = Fin q /\ (0 <= q)%Q /\ (q <= 1)%Q.
Proof.
  assert (Ht : training_cell demo_gen demo_solver 0%Z demo_features = Ok demo_trained)
    by (vm_compute; reflexivity).
  destruct (training_accuracy demo_gen demo_solver 0%Z demo_features demo_trained Ht)
    as (q & Hq & _ & H0 & H1).
  exists q. split; [exact Hq|]. split; [exact H0 | exact H1].
Defined.

(** ** Sizes of the partitions and length of the solver run *)

Section SplitSizes.
Variable gen : BitGenerator.
Variable solver : Solver.

(** X17: the split holds out 30% of the rows, rounded up to whole rows, and
    keeps the rest for training; neither partition is empty. *)
Theorem split_sizes global X y sp :
  train_test_split gen global X y test_size (Some random_state) = Ok sp ->
  let n := nrows X in
  let n_test := nrows (X_test sp) in
  let n_train := nrows (X_train sp) in
  n_test = (3 * n + 9) / 10
  /\ 3 * n <= 10 * n_test < 3 * n + 10
  /\ n_train = n - n_test
  /\ 0 < n_train /\ 0 < n_test
  /\ length (s_values (y_test sp)) = n_test
  /\ length (s_values (y_train sp)) = n_train.
Proof.
  intros (n_train & n_test & Hlen & Hv & Hsp)%train_test_split_Ok.
  apply validate_shuffle_split_Ok in Hv as (Htest & Htrain & Hpos & Hsum).
  cbv zeta in Hsp.
  set (perm := permutation gen _ (nrows X)) in *.
  assert (Hlp : length perm = nrows X).
  { unfold perm. by rewrite (Permutation_length (permutation_perm gen _ _)), length_seq. }
  cbv zeta. rewrite Hsp. cbn [X_train X_test y_train y_test iloc_series s_values].
  rewrite !nrows_iloc, !length_take_pos, length_take, length_take, length_drop, Hlp.
  assert (Htake : n_test `min` nrows X = n_test) by lia.
  assert (Hrest : n_train `min` (nrows X - n_test) = n_train) by lia.
  rewrite Htake, Hrest.
  assert (Hdiv : 3 * nrows X <= 10 * n_test < 3 * nrows X + 10).
  { pose proof (Nat.div_mod_eq (3 * nrows X + 9) 10).
    pose proof (Nat.mod_upper_bound (3 * nrows X + 9) 10). lia. }
  split; [done|]. split; [done|]. split; [done|]. split; [done|].
  split; [lia|]. by split.
Qed.

(** X18: whenever the training cell completes, the solver has run at most
    [max_iter] = 1000 iterations. *)
Theorem solver_iterations_bounded global df t :
  training_cell gen solver global df = Ok t ->
  n_iter_ t <= max_iter /\ max_iter = 1000.
Proof.
  intros (X & y & fitted & _ & _ & _ & Hfit & _ & Hit & _)%training_cell_Ok.
  split; [|done]. rewrite Hit. by apply (fit_iterations _ _ _ _ _ Hfit).
Qed.

End SplitSizes.

(** ** Tracking cell *)

Module TrackingProperties.
Import Tracking.

Section Cell.
Variable gen : BitGenerator.
Variable solver : Solver.

(** The training cell has validated the training partition, so the
    prediction on it that the tracking cell asks for succeeds. *)
Lemma predict_on_train global df (t : Trained solver) :
  training_cell gen solver global df = Ok t ->
  exists pred, predict solver (model t) (X_train (split t)) = Ok pred.
Proof.
  intros (X & y & fitted & _ & _ & _ & Hfit & _)%training_cell_Ok.
  apply fit_Ok in Hfit as (Hc & _). unfold predict. rewrite Hc. by eexists.
Qed.

(** The outcome of the cell, call by call. *)
Lemma tracking_cell_outcome srv (t : Trained solver) (s : session solver) :
  active_run s = None ->
  let r := (tracking_cell solver srv t s).1 in
  let s' := (tracking_cell solver srv t s).2 in
  match on_start_run srv with
  | Fails msg =>
      r = inl (ServiceError msg) /\ active_run s' = None
      /\ finished s' = finished s /\ calls s' = calls s ++ [EvStartRun]
  | Succeeds =>
  match on_log_metric srv with
  | Fails msg =>
      r = inl (ServiceError msg) /\ active_run s' = Some (new_run solver)
      /\ finished s' = finished s /\ calls s' = calls s ++ [EvStartRun; EvLogMetric]
  | Succeeds =>
  match predict solver (model t) (X_train (split t)) with
  | Raise e =>
      r = inl (PythonError e) /\ active_run s' = Some (metric_logged t)
      /\ finished s' = finished s /\ calls s' = calls s ++ [EvStartRun; EvLogMetric]
  | Ok _ =>
  match on_infer_signature srv with
  | Fails msg =>
      r = inl (ServiceError msg) /\ active_run s' = Some (metric_logged t)
      /\ finished s' = finished s
      /\ calls s' = calls s ++ [EvStartRun; EvLogMetric; EvInferSignature]
  | Succeeds =>
  match on_log_model srv with
  | Fails msg =>
      r = inl (ServiceError msg) /\ active_run s' = Some (metric_logged t)
      /\ finished s' = finished s
      /\ calls s' = calls s ++ [EvStartRun; EvLogMetric; EvInferSignature; EvLogModel]
  | Succeeds =>
  match on_set_terminated srv with
  | Fails msg =>
      r = inl (ServiceError msg) /\ active_run s' = None
      /\ finished s' = finished s
      /\ calls s' = calls s ++ [EvStartRun; EvLogMetric; EvInferSignature;
                                 EvLogModel; EvEndRun]
  | Succeeds =>
      r = inr tt /\ active_run s' = None
      /\ finished s' = finished s ++ [logged_run t]
      /\ calls s' = calls s ++ [EvStartRun; EvLogMetric; EvInferSignature;
                                 EvLogModel; EvEndRun]
  end end end end end end.
Proof.
  intros Hs.
  unfold tracking_cell, se_bind, se_lift, start_run, log_metric, infer_signature,
    log_model, end_run.
  rewrite Hs.
  destruct (on_start_run srv) as [|m1]; simpl; [|by repeat split].
  destruct (on_log_metric srv) as [|m2]; simpl;
    [|repeat split; try done; by rewrite <- app_assoc].
  destruct (predict solver (model t) (X_train (split t))) as [pred|e]; simpl;
    [|repeat split; try done; by rewrite <- app_assoc].
  destruct (on_infer_signature srv) as [|m3]; simpl;
    [|repeat split; try done; by rewrite <- !app_assoc].
  destruct (on_log_model srv) as [|m4]; simpl;
    [|repeat split; try done; by rewrite <- !app_assoc].
  destruct (on_set_terminated srv) as [|m5]; simpl;
    repeat split; try done; by rewrite <- !app_assoc.
Qed.

(** X13: on a kernel without an active run, after a completed training
    cell, the tracking cell gets its run recorded as ended exactly when all
    of [start_run], [log_metric], [infer_signature], [log_model] and the
    call [end_run] makes succeed; the run then holds the accuracy of the
    training cell and the fitted model with the first five training rows.
    When [log_metric], [infer_signature] or [log_model] raises, the cell
    stops before [mlflow.end_run()] and the run stays active; when the call
    of [end_run] fails, no run is active and none is recorded as ended. *)
Theorem tracking_run_lifecycle global df srv (t : Trained solver) (s : session solver) :
  training_cell gen solver global df = Ok t ->
  active_run s = None ->
  let r := (tracking_cell solver srv t s).1 in
  let s' := (tracking_cell solver srv t s).2 in
  match on_start_run srv with
  | Fails msg =>
      r = inl (ServiceError msg) /\ active_run s' = None /\ finished s' = finished s
  | Succeeds =>
  match on_log_metric srv with
  | Fails msg =>
      r = inl (ServiceError msg) /\ active_run s' = Some (new_run solver)
      /\ finished s' = finished s /\ ~ In EvEndRun (drop (length (calls s)) (calls s'))
  | Succeeds =>
  match on_infer_signature srv with
  | Fails msg =>
      r = inl (ServiceError msg) /\ active_run s' = Some (metric_logged t)
      /\ finished s' = finished s /\ ~ In EvEndRun (drop (length (calls s)) (calls s'))
  | Succeeds =>
  match on_log_model srv with
  | Fails msg =>
      r = inl (ServiceError msg) /\ active_run s' = Some (metric_logged t)
      /\ finished s' = finished s /\ ~ In EvEndRun (drop (length (calls s)) (calls s'))
  | Succeeds =>
  match on_set_terminated srv with
  | Fails msg =>
      r = inl (ServiceError msg) /\ active_run s' = None /\ finished s' = finished s
  | Succeeds =>
      r = inr tt /\ active_run s' = None /\ finished s' = finished s ++ [logged_run t]
  end end end end end.
Proof.
  intros Ht Hs. destruct (predict_on_train _ _ _ Ht) as [pred Hpred].
  pose proof (tracking_cell_outcome srv t s Hs) as H. cbv zeta in *.
  rewrite Hpred in H.
  destruct (on_start_run srv); [|tauto].
  destruct (on_log_metric srv).
  2:{ destruct H as (? & ? & ? & ->). rewrite drop_app_length.
      repeat split; try done. simpl. intros [?|[?|[]]]; done. }
  destruct (on_infer_signature srv).
  2:{ destruct H as (? & ? & ? & ->). rewrite drop_app_length.
      repeat split; try done. simpl. intros [?|[?|[?|[]]]]; done. }
  destruct (on_log_model srv).
  2:{ destruct H as (? & ? & ? & ->). rewrite drop_app_length.
      repeat split; try done. simpl. intros [?|[?|[?|[?|[]]]]]; done. }
  destruct (on_set_terminated srv); tauto.
Qed.

Lemma tracking_cell_active srv (t : Trained solver) (s : session solver) r :
  active_run s = Some r ->
  tracking_cell solver srv t s
  = (inl (ServiceError "Run is already active"), called solver EvStartRun s).
Proof.
  intros Hr. unfold tracking_cell, se_bind, start_run. by rewrite Hr.
Qed.

(** X14: a run the cell left active blocks the cell: once an execution
    got past [start_run] and then raised before [end_run] (in [log_metric],
    in the prediction, in [infer_signature] or in [log_model]), every
    further execution raises in [start_run], whatever the server answers,
    logs nothing and leaves the run active. *)
Theorem tracking_rerun_blocked srv srv' (t t' : Trained solver) (s : session solver) :
  active_run s = None ->
  on_start_run srv = Succeeds ->
  on_log_metric srv <> Succeeds
  \/ (exists e, predict solver (model t) (X_train (split t)) = Raise e)
  \/ on_infer_signature srv <> Succeeds
  \/ on_log_model srv <> Succeeds ->
  let s1 := (tracking_cell solver srv t s).2 in
  let s2 := (tracking_cell solver srv' t' s1).2 in
  is_Some (active_run s1)
  /\ (tracking_cell solver srv' t' s1).1 = inl (ServiceError "Run is already active")
  /\ active_run s2 = active_run s1
  /\ finished s2 = finished s1.
Proof.
  intros Hs Hstart Hfail. cbv zeta.
  assert (Hact : is_Some (active_run (tracking_cell solver srv t s).2)).
  { pose proof (tracking_cell_outcome srv t s Hs) as H. cbv zeta in H.
    rewrite Hstart in H.
    destruct (on_log_metric srv); [|by destruct H as (_ & -> & _)].
    destruct (predict solver (model t) (X_train (split t))) as [pred|e];
      [|by destruct H as (_ & -> & _)].
    destruct (on_infer_signature srv); [|by destruct H as (_ & -> & _)].
    destruct (on_log_model srv); [|by destruct H as (_ & -> & _)].
    exfalso. destruct Hfail as [?|[[e ?]|[?|?]]]; done. }
  split; [done|]. destruct Hact as [r Hr].
  by rewrite (tracking_cell_active srv' t' _ r Hr).
Qed.

End Cell.
End TrackingProperties.

(** ** Registration cell *)

Module RegistryProperties.
Import Registry.

Section Cell.
Variable solver : Solver.
Variable dumps : params solver -> list Byte.byte.

(** X16: when the registration cell completes it has uploaded the
    serialization of the classifier it was given, also when an older file
    sat at the path, and added it to the registry after the entries already
    there; [Model.register] never misses its file.  When the workspace
    lookup fails, or the file cannot be opened, disk and registry are left
    as they were; when the write fails after the file was opened, the file
    holds what was written by then, the other files are untouched and
    nothing is registered; when the registration call fails, the file is
    written and the registry is unchanged. *)
Theorem registration_outcome svc (fitted : params solver) (w : world) :
  let r := registration_cell solver dumps svc fitted w in
  let path := "logistic_regression_model.pkl" in
  match on_from_config svc with
  | Fails msg => r = (inl (ServiceError msg), w)
  | Succeeds =>
  match on_dump svc with
  | OpenFails msg => r = (inl (ServiceError msg), w)
  | WriteFails msg written =>
      r.1 = inl (ServiceError msg)
      /\ registry r.2 = registry w
      /\ disk r.2 = <[path := written]> (disk w)
  | Dumped =>
  match on_register svc with
  | Fails msg =>
      r.1 = inl (ServiceError msg)
      /\ registry r.2 = registry w
      /\ disk r.2 = <[path := dumps fitted]> (disk w)
  | Succeeds =>
      let e := {| model_name := "customer_churn_model";
                  content := dumps fitted;
                  description :=
                    "Logistic Regression model for customer churn prediction" |} in
      r.1 = inr e
      /\ registry r.2 = registry w ++ [e]
      /\ disk r.2 = <[path := dumps fitted]> (disk w)
  end end end.
Proof.
  cbv zeta. unfold registration_cell, se_bind, from_config, joblib_dump, register.
  destruct (on_from_config svc) as [|m1]; [|done].
  destruct (on_dump svc) as [|m2|m2 written]; [|done|done]. simpl.
  rewrite lookup_insert_eq.
  by destruct (on_register svc) as [|m3].
Qed.

End Cell.
End RegistryProperties.

(** ** The further properties on the demonstration tables *)

Lemma preprocess_raises_only_KeyError_witness :
  preprocess (from_records demo_no_status) = Raise (KeyError "Customer_Status")
  /\ "Customer_Status" ∉ columns (from_records demo_no_status).
Proof.
  assert (H : preprocess (from_records demo_no_status)
              = Raise (KeyError "Customer_Status")) by (vm_compute; reflexivity).
  split; [exact H|].
  destruct (preprocess_raises_only_KeyError _ _ H) as (c & [= <-] & _ & Hc). exact Hc.
Defined.

Lemma preprocess_removes_source_columns_witness :
  "Churn_Reason" ∉ columns demo_features.
Proof.
  apply (preprocess_removes_source_columns demo_df demo_features "Churn_Reason");
    [vm_compute; reflexivity | compute_done].
Defined.

Lemma preprocess_no_missing_cell_witness :
  Forall (fun p => length p.2 = 3 /\ Forall is_Some p.2) (data demo_features).
Proof.
  apply (preprocess_no_missing_cell demo_df demo_features). vm_compute. reflexivity.
Defined.

Lemma preprocess_passes_other_columns_witness :
  lookup_col "Age" (data demo_features)
  = Some [Some (VNum 37); Some (VNum 46); Some (VNum 78)].
Proof.
  rewrite (preprocess_passes_other_columns demo_df demo_features "Age"
             [Some (VNum 37); Some (VNum 46); None; Some (VNum 78)]);
    [reflexivity | vm_compute; reflexivity | reflexivity | compute_done].
Defined.

Lemma dropped_category_is_least_witness :
  value_leb (VStr "Attitude") (VStr "Price") = true
  /\ VStr "Price" ∈ kept_levels true
       [Some (VStr "Price"); Some (VStr "Moved"); Some (VStr "Attitude")].
Proof.
  destruct (dropped_category_is_least
              [Some (VStr "Price"); Some (VStr "Moved"); Some (VStr "Attitude")]
              (VStr "Attitude") (VStr "Price")) as [Hle Hkept];
    [reflexivity | compute_done |].
  split; [exact Hle | by apply Hkept].
Defined.

Lemma one_hot_row_witness :
  ("Churn_Reason_Moved", [Some (VNum 0); Some (VNum 1); Some (VNum 0)])
    ∈ get_dummies_1d true "Churn_Reason"
        [Some (VStr "Price"); Some (VStr "Moved"); Some (VStr "Attitude")]
  /\ length (filter (fun col => col.2 !! 1 = Some (Some (VNum 1)))
               (get_dummies_1d true "Churn_Reason"
                  [Some (VStr "Price"); Some (VStr "Moved"); Some (VStr "Attitude")]))
     = 1.
Proof.
  destruct (one_hot_row "Churn_Reason"
              [Some (VStr "Price"); Some (VStr "Moved"); Some (VStr "Attitude")]
              1 (VStr "Moved")) as (_ & Hown & Hcount); [reflexivity|].
  split; [|exact Hcount]. apply Hown. discriminate.
Defined.

Lemma constant_column_not_encoded_witness :
  get_dummies_1d true "Contract" [Some (VStr "Two Year"); Some (VStr "Two Year")] = [].
Proof.
  apply (constant_column_not_encoded _ _ (VStr "Two Year")).
  intros x Hx. repeat (apply elem_of_cons in Hx as [->|Hx]; [reflexivity|]).
  by apply elem_of_nil in Hx.
Defined.

Lemma training_needs_two_rows_witness :
  nrows demo_single_features = 1
  /\ training_cell demo_gen demo_solver 0%Z demo_single_features
     = Raise (ValueError "the resulting train set will be empty").
Proof.
  split; [reflexivity|].
  apply (training_needs_two_rows demo_gen demo_solver 0%Z (from_records demo_single));
    [vm_compute; reflexivity | vm_compute; lia].
Defined.

Lemma training_fails_on_single_class_witness :
  exists msg,
    training_cell demo_gen demo_solver 0%Z demo_all_churned_features
    = Raise (ValueError msg).
Proof.
  apply (training_fails_on_single_class demo_gen demo_solver 0%Z
           (from_records demo_all_churned) demo_all_churned_features
           {| s_index := [0; 1; 2];
              s_values := replicate 3 (Some (VStr "Churned")) |}).
  - vm_compute. reflexivity.
  - vm_compute. reflexivity.
  - left. by repeat constructor.
Defined.

Lemma split_keeps_rows_paired_witness :
  exists sp,
    train_test_split demo_gen 0%Z (iloc [0; 1; 2] demo_features)
      {| s_index := [0; 1; 3];
         s_values := [Some (VNum 1); Some (VNum 0); Some (VNum 1)] |}
      test_size (Some random_state) = Ok sp
    /\ exists p, p < 3
         /\ s_values (y_test sp) !! 0
            = [Some (VNum 1); Some (VNum 0); Some (VNum 1)] !! p.
Proof.
  destruct (train_test_split demo_gen 0%Z (iloc [0; 1; 2] demo_features)
              {| s_index := [0; 1; 3];
                 s_values := [Some (VNum 1); Some (VNum 0); Some (VNum 1)] |}
              test_size (Some random_state)) as [sp|e] eqn:Hsp;
    [|vm_compute in Hsp; discriminate Hsp].
  exists sp. split; [reflexivity|].
  destruct (split_keeps_rows_paired demo_gen 0%Z _ _ sp Hsp) as [_ Htest].
  destruct (Htest 0) as (p & Hp & _ & _ & Hy & _).
  - vm_compute in Hsp. injection Hsp as <-. vm_compute. lia.
  - exists p. split; [exact Hp | exact Hy].
Defined.

Lemma split_sizes_witness :
  exists sp,
    train_test_split demo_gen 0%Z (iloc [0; 1; 2] demo_features)
      {| s_index := [0; 1; 3];
         s_values := [Some (VNum 1); Some (VNum 0); Some (VNum 1)] |}
      test_size (Some random_state) = Ok sp
    /\ nrows (X_test sp) = 1 /\ nrows (X_train sp) = 2.
Proof.
  destruct (train_test_split demo_gen 0%Z (iloc [0; 1; 2] demo_features)
              {| s_index := [0; 1; 3];
                 s_values := [Some (VNum 1); Some (VNum 0); Some (VNum 1)] |}
              test_size (Some random_state)) as [sp|e] eqn:Hsp;
    [|vm_compute in Hsp; discriminate Hsp].
  exists sp. split; [reflexivity|].
  destruct (split_sizes demo_gen 0%Z _ _ sp Hsp) as (Htest & _ & Htrain & _).
  split; [exact Htest | by rewrite Htrain, Htest].
Defined.

Lemma solver_iterations_bounded_witness :
  n_iter_ demo_trained <= 1000.
Proof.
  destruct (solver_iterations_bounded demo_gen demo_solver 0%Z demo_features
              demo_trained) as [Hle Hmax]; [vm_compute; reflexivity|].
  rewrite <- Hmax. exact Hle.
Defined.

Lemma tracking_run_lifecycle_witness :
  let s0 : Tracking.session demo_solver :=
    {| Tracking.active_run := None; Tracking.finished := []; Tracking.calls := [] |} in
  (Tracking.tracking_cell demo_solver demo_tracker demo_trained s0).1
  = inl (ServiceError "artifact store unavailable")
  /\ Tracking.finished
       (Tracking.tracking_cell demo_solver demo_tracker demo_trained s0).2 = [].
Proof.
  cbv zeta.
  assert (Ht : training_cell demo_gen demo_solver 0%Z demo_features = Ok demo_trained)
    by (vm_compute; reflexivity).
  pose proof (TrackingProperties.tracking_run_lifecycle demo_gen demo_solver 0%Z
                demo_features demo_tracker demo_trained
                (Tracking.mkSession demo_solver None [] []) Ht eq_refl) as H.
  cbv zeta in H. cbn [Tracking.on_start_run Tracking.on_log_metric
                      Tracking.on_infer_signature Tracking.on_log_model
                      demo_tracker] in H.
  destruct H as (Hr & _ & Hf & _). split; [exact Hr | exact Hf].
Defined.

Lemma tracking_rerun_blocked_witness :
  let s0 : Tracking.session demo_solver :=
    {| Tracking.active_run := None; Tracking.finished := []; Tracking.calls := [] |} in
  let s1 := (Tracking.tracking_cell demo_solver demo_tracker demo_trained s0).2 in
  (Tracking.tracking_cell demo_solver
     {| Tracking.on_start_run := Succeeds; Tracking.on_log_metric := Succeeds;
        Tracking.on_infer_signature := Succeeds;
        Tracking.on_log_model := Succeeds;
        Tracking.on_set_terminated := Succeeds |} demo_trained s1).1
  = inl (ServiceError "Run is already active").
Proof.
  cbv zeta.
  destruct (TrackingProperties.tracking_rerun_blocked demo_solver demo_tracker
              {| Tracking.on_start_run := Succeeds; Tracking.on_log_metric := Succeeds;
                 Tracking.on_infer_signature := Succeeds;
                 Tracking.on_log_model := Succeeds;
                 Tracking.on_set_terminated := Succeeds |}
              demo_trained demo_trained (Tracking.mkSession demo_solver None [] [])
              eq_refl eq_refl)
    as (_ & H & _ & _).
  - right. right. right. discriminate.
  - exact H.
Defined.
